(** * feishu_mail.py: a shallow embedding of the mailbox script

    The script talks to an IMAP server through [imaplib] and parses messages
    with the [email] package.  Neither is part of the repository, so the
    embedding takes them as data:

    - the server is a record of reply functions ([server]);
    - the library calls whose result depends on byte-level formats
      ([int], [bytes.decode], [email.message_from_bytes], address splitting,
      [decode_header], codec lookup) are the fields of the class [Library];
    - a parsed message is the tree [message].

    Everything the script itself does (the control flow of the five
    operations, their exception handlers, the folder table, the string
    splitting and stripping, the slices, the dispatch in [main]) is written
    out below, function by function, under the names of the source.

    Python [str] and [bytes] are both embedded as [string]; a character of a
    [str] is one [ascii].  The script only compares, splits, strips,
    concatenates and slices strings, so nothing depends on the size of the
    alphabet.  Text written to standard output is not modelled. *)

From Stdlib Require Import ZArith DecimalString Ascii String.
From stdpp Require Import base option list strings gmap.

(** ** Python outcomes *)

(** The two kinds of exception the script distinguishes: [except Exception]
    catches the first and lets [SystemExit] (raised by [sys.exit]) through. *)
Inductive exn : Type :=
  | Exception
  | SystemExit (code : Z).

Inductive outcome (A : Type) : Type :=
  | Ret (a : A)
  | Raise (e : exn).
Arguments Ret {A} a.
Arguments Raise {A} e.

(** A library call that may raise an ordinary exception returns [option]. *)
Definition raising {A : Type} (o : option A) : outcome A :=
  match o with
  | Some a => Ret a
  | None => Raise Exception
  end.

(** ** The IMAP connection *)

(** One element of the data list of an [imaplib] reply: [None], a [bytes]
    line, or a [(header, literal)] pair. *)
Inductive item : Type :=
  | INone
  | IBytes (b : string)
  | ITuple (header literal : string).

(** A reply is [(status, data)], or the call raises ([IMAP4.error],
    [IMAP4.abort], a socket error: all of them are [Exception]s). *)
Inductive reply : Type :=
  | Reply (status : string) (data : list item)
  | Failure.

Record server : Type := {
  srv_login : bool;
  srv_select : string -> reply;
  (* first argument: the folder selected on the connection *)
  srv_fetch : string -> string -> reply;
  srv_search : string -> string -> reply;
  srv_list : reply;
  srv_logout : reply
}.

Inductive command : Type :=
  | LOGIN
  | SELECT (mailbox : string)
  | FETCH (message_set message_parts : string)
  | SEARCH (criterion : string)
  | LIST
  | LOGOUT.

(** The [mail] object: the peer, the folder selected on the connection and
    the commands sent so far, oldest first. *)
Record IMAP4 : Type := {
  peer : server;
  selected : option string;
  sent : list command
}.

Definition log (cmd : command) (mail : IMAP4) : IMAP4 :=
  {| peer := peer mail; selected := selected mail; sent := sent mail ++ [cmd] |}.

Definition set_selected (o : option string) (mail : IMAP4) : IMAP4 :=
  {| peer := peer mail; selected := o; sent := sent mail |}.

(** Code that uses the connection: it returns or raises, and leaves the
    connection in a new state either way. *)
Definition imap (A : Type) : Type := IMAP4 -> outcome A * IMAP4.

Definition imap_ret {A : Type} (a : A) : imap A := fun mail => (Ret a, mail).

Definition imap_bind {A B : Type} (m : imap A) (k : A -> imap B) : imap B :=
  fun mail =>
    match m mail with
    | (Ret a, mail') => k a mail'
    | (Raise e, mail') => (Raise e, mail')
    end.

Definition lift {A : Type} (r : outcome A) : imap A := fun mail => (r, mail).

(** [try: body  except Exception: handler]. *)
Definition try_except {A : Type} (body handler : imap A) : imap A :=
  fun mail =>
    match body mail with
    | (Raise Exception, mail') => handler mail'
    | r => r
    end.

Declare Scope imap_scope.
Delimit Scope imap_scope with imap.
Notation "x <- m ;; k" := (imap_bind m (fun x => k))
  (at level 100, m at next level, right associativity) : imap_scope.
Open Scope imap_scope.

(** [for x in xs: s = body(x, s)]. *)
Fixpoint for_in {A S : Type} (xs : list A) (body : A -> S -> imap S) (s : S)
  : imap S :=
  match xs with
  | [] => imap_ret s
  | x :: xs' => s' <- body x s ;; for_in xs' body s'
  end.

Definition of_reply (r : reply) : imap (string * list item) :=
  match r with
  | Reply status data => imap_ret (status, data)
  | Failure => lift (Raise Exception)
  end.

(** [mail.select(folder)]: on [OK] the folder becomes the selected one, on
    another status none is selected, an exception leaves the state alone. *)
Definition mail_select (folder : string) : imap (string * list item) :=
  fun mail =>
    let mail1 := log (SELECT folder) mail in
    match srv_select (peer mail) folder with
    | Reply status data =>
        (Ret (status, data),
         set_selected (if String.eqb status "OK" then Some folder else None) mail1)
    | Failure => (Raise Exception, mail1)
    end.

(** [mail.fetch(message_set, message_parts)]: refused by [imaplib] itself
    (an exception, nothing sent) when no folder is selected. *)
Definition mail_fetch (message_set message_parts : string)
  : imap (string * list item) :=
  fun mail =>
    match selected mail with
    | None => (Raise Exception, mail)
    | Some folder =>
        of_reply (srv_fetch (peer mail) folder message_set)
                 (log (FETCH message_set message_parts) mail)
    end.

(** [mail.search(None, criterion)]. *)
Definition mail_search (criterion : string) : imap (string * list item) :=
  fun mail =>
    match selected mail with
    | None => (Raise Exception, mail)
    | Some folder =>
        of_reply (srv_search (peer mail) folder criterion)
                 (log (SEARCH criterion) mail)
    end.

(** [mail.list()]. *)
Definition mail_list : imap (string * list item) :=
  fun mail => of_reply (srv_list (peer mail)) (log LIST mail).

(** [mail.logout()]: the connection leaves its folder, the command is sent,
    and the call raises when the server does not answer it (a connection
    that was lost, a [BAD] answer). *)
Definition mail_logout : imap unit :=
  fun mail =>
    let mail1 := set_selected None (log LOGOUT mail) in
    match srv_logout (peer mail) with
    | Reply _ _ => (Ret tt, mail1)
    | Failure => (Raise Exception, mail1)
    end.

(** ** Strings, lists and slices *)

Definition dquote : ascii := "034"%char.
Definition slash : ascii := "/"%char.

(** [s.split(sep)] for a one-character separator. *)
Fixpoint split_on (sep : ascii) (s : string) : list string :=
  match s with
  | EmptyString => [EmptyString]
  | String c s' =>
      if Ascii.eqb c sep then EmptyString :: split_on sep s'
      else match split_on sep s' with
           | [] => [String c EmptyString]
           | w :: ws => String c w :: ws
           end
  end.

(** [l[-1]] and [l[-2]]; [None] stands for [IndexError]. *)
Definition index_last {A : Type} (l : list A) : option A := last l.

Definition index_neg2 {A : Type} (l : list A) : option A :=
  if decide (2 <= length l) then l !! (length l - 2) else None.

(** [l[-n:]]. *)
Definition slice_last {A : Type} (n : nat) (l : list A) : list A :=
  drop (length l - n) l.

(** [s[:n]]. *)
Fixpoint slice_to (n : nat) (s : string) : string :=
  match n, s with
  | S n', String c s' => String c (slice_to n' s')
  | _, _ => EmptyString
  end.
Arguments slice_to : simpl never.

Fixpoint lstrip (p : ascii -> bool) (s : string) : string :=
  match s with
  | EmptyString => EmptyString
  | String c s' => if p c then lstrip p s' else s
  end.

Fixpoint rstrip (p : ascii -> bool) (s : string) : string :=
  match s with
  | EmptyString => EmptyString
  | String c s' =>
      match rstrip p s' with
      | EmptyString => if p c then EmptyString else String c EmptyString
      | r => String c r
      end
  end.

(** [s.strip(chars)]. *)
Definition strip (p : ascii -> bool) (s : string) : string :=
  rstrip p (lstrip p s).

(** The characters [str.strip()] removes, among the first 256 code points. *)
Definition str_isspace (c : ascii) : bool :=
  let n := nat_of_ascii c in
  (Nat.leb 9 n && Nat.leb n 13) || (Nat.leb 28 n && Nat.leb n 32)
  || Nat.eqb n 133 || Nat.eqb n 160.

(** The separators of [bytes.split()]. *)
Definition bytes_isspace (c : ascii) : bool :=
  let n := nat_of_ascii c in
  (Nat.leb 9 n && Nat.leb n 13) || Nat.eqb n 32.

(** [b.split()]: maximal runs of non-blank bytes; [cur] is the run being
    read, in reverse. *)
Fixpoint bytes_split_go (cur : string) (s : string) : list string :=
  match s with
  | EmptyString =>
      match cur with
      | EmptyString => []
      | _ => [String.rev cur]
      end
  | String c s' =>
      if bytes_isspace c then
        match cur with
        | EmptyString => bytes_split_go EmptyString s'
        | _ => String.rev cur :: bytes_split_go EmptyString s'
        end
      else bytes_split_go (String c cur) s'
  end.

Definition bytes_split (s : string) : list string :=
  bytes_split_go EmptyString s.

(** [str(i)] for an [int]. *)
Definition py_str (i : Z) : string := NilZero.string_of_int (Z.to_int i).

(** [range(start, stop, -1)]. *)
Definition range_down (start stop : Z) : list Z :=
  (fun k => (start - Z.of_nat k)%Z) <$> seq 0 (Z.to_nat (start - stop)).

(** ** Parsed messages *)

Record headers : Type := {
  h_from : option string;
  h_subject : option string;
  h_date : option string
}.

(** A message as [email.message_from_bytes] returns it.  [text] is the
    outcome of [part.get_payload(decode=True).decode('utf-8',
    errors='ignore')] on a part whose payload is not a list: the decoded
    text, or [None] when that expression raises. *)
#[warnings="-register-all"]
Inductive message : Type :=
  | Leaf (hs : headers) (content_type : string) (text : option string)
  | Multipart (hs : headers) (content_type : string) (subparts : list message).

Definition msg_headers (m : message) : headers :=
  match m with
  | Leaf hs _ _ => hs
  | Multipart hs _ _ => hs
  end.

Definition get_content_type (m : message) : string :=
  match m with
  | Leaf _ ct _ => ct
  | Multipart _ ct _ => ct
  end.

Definition is_multipart (m : message) : bool :=
  match m with
  | Leaf _ _ _ => false
  | Multipart _ _ _ => true
  end.

(** [get_payload(decode=True)] is [None] on a part whose payload is a list,
    and [None.decode] raises. *)
Definition payload_text (m : message) : option string :=
  match m with
  | Leaf _ _ text => text
  | Multipart _ _ _ => None
  end.

(** [msg.walk()]: the message, then its subparts, depth first. *)
Fixpoint walk (m : message) : list message :=
  match m with
  | Leaf _ _ _ => [m]
  | Multipart _ _ subparts =>
      m :: (fix walk_all (ms : list message) : list message :=
              match ms with
              | [] => []
              | m' :: ms' => walk m' ++ walk_all ms'
              end) subparts
  end.

(** One element of the list [decode_header] returns. *)
Inductive hpart : Type :=
  | PBytes (b : string)
  | PStr (s : string).

(** ** The library calls the script relies on *)

Class Library : Type := {
  (* int(x) for a str or bytes x *)
  py_int : string -> option Z;
  (* b.decode() *)
  bytes_decode : string -> option string;
  (* b.decode(encoding, errors='ignore'); LookupError on an unknown codec *)
  bytes_decode_ignore : string -> string -> option string;
  (* email.message_from_bytes *)
  message_from_bytes : string -> message;
  (* email.utils.parseaddr on a non-empty str *)
  parseaddr_str : string -> string * string;
  (* email.header.decode_header *)
  decode_header : string -> option (list (hpart * option string))
}.

(** [email.utils.parseaddr]: a missing or empty field has no address list,
    and the call returns [('', '')]. *)
Definition parseaddr `{Library} (addr : option string) : string * string :=
  match addr with
  | None => (EmptyString, EmptyString)
  | Some EmptyString => (EmptyString, EmptyString)
  | Some s => parseaddr_str s
  end.

(** ** Records returned to the caller *)

(** The ['id'] of a summary is an [int] in [get_recent_emails] and a [str]
    in the two search operations. *)
Inductive msgid : Type :=
  | IdInt (i : Z)
  | IdStr (s : string).

Record summary : Type := {
  id : msgid;
  from_name : string;
  from_addr : string;
  subject : string;
  date : option string
}.

Record detail : Type := {
  d_from_name : string;
  d_from_addr : string;
  d_subject : string;
  d_date : option string;
  d_body : string
}.

Definition no_subject : string := "(无主题)".
Definition unparsable_body : string := "(无法解析内容)".
Definition RFC822 : string := "(RFC822)".

Definition truthy_str (o : option string) : bool :=
  match o with
  | None => false
  | Some s => negb (String.eqb s "")
  end.

Definition truthy_item (it : item) : bool :=
  match it with
  | INone => false
  | IBytes b => negb (String.eqb b "")
  | ITuple _ _ => true
  end.

(** [x.decode()], [x.split()] and [int(x)] on an element of a reply: only
    [bytes] has the two methods, and [int] refuses [None] and tuples. *)
Definition item_bytes (it : item) : option string :=
  match it with
  | IBytes b => Some b
  | _ => None
  end.

(** [email.message_from_bytes(x[1])]: [x[1]] is the literal of a pair; on a
    [bytes] line it is an [int] (or [IndexError]), which the parser refuses. *)
Definition item_literal (it : item) : option string :=
  match it with
  | ITuple _ literal => Some literal
  | _ => None
  end.

(** [data[0]] used as [bytes]; [None] stands for the [IndexError],
    [AttributeError] or [TypeError] raised otherwise. *)
Definition first_bytes (data : list item) : option string :=
  match data with
  | [] => None
  | first :: _ => item_bytes first
  end.

Section Script.
Context `{Library}.

(** *** decode_subject (lines 20-31) *)

Definition decode_part (p : hpart * option string) : option string :=
  match p with
  | (PBytes b, encoding) =>
      bytes_decode_ignore (if truthy_str encoding then default "" encoding else "utf-8") b
  | (PStr s, _) => Some s
  end.

Fixpoint decode_parts (decoded : list (hpart * option string)) (result : string)
  : option string :=
  match decoded with
  | [] => Some result
  | p :: rest => t ← decode_part p; decode_parts rest (result +:+ t)
  end.

Definition decode_subject (subj : option string) : option string :=
  if negb (truthy_str subj) then Some no_subject
  else decoded ← decode_header (default "" subj); decode_parts decoded "".

(** *** connect_mailbox (lines 34-42) *)

Definition connect_mailbox (net : server) : outcome IMAP4 :=
  if srv_login net then Ret {| peer := net; selected := None; sent := [LOGIN] |}
  else Raise (SystemExit 1).

(** *** get_folder_list (lines 45-71) *)

Definition folder_map : gmap string string :=
  {[ "&XfJfUmhj-" := "Archive";
     "&V4NXPpCuTvY-" := "Junk";
     "&XfJSIJZk-" := "Trash";
     "&XfJT0ZAB-" := "Sent";
     "&g0l6P3ux-" := "Drafts" ]}.

(** Lines 53-66: the display name of one decoded line of the listing. *)
Definition folder_name (decode : string) : option string :=
  let parts := split_on dquote decode in
  if decide (3 <= length parts) then
    folder_path ← index_neg2 parts;
    Some (default folder_path (folder_map !! folder_path))
  else
    seg ← index_last (split_on slash decode);
    Some (strip (Ascii.eqb dquote) (strip str_isspace seg)).

Definition get_folder_list : imap (list string) :=
  try_except
    (r <- mail_list ;;
     let '(status, folder_list) := r in
     for_in folder_list
       (fun folder folders =>
          decode <- lift (raising (b ← item_bytes folder; bytes_decode b)) ;;
          name <- lift (raising (folder_name decode)) ;;
          imap_ret (folders ++ [name]))
       [])
    (imap_ret []).

(** *** The body of the three fetch loops (lines 89-112, 142-161, 194-213)

    What follows [mail.fetch] inside the [try] of each loop is the same
    text in the three functions, up to the expression given for ['id']. *)
Definition append_summary (msg_id : option msgid) (status : string)
    (msg_data : list item) (emails : list summary) : option (list summary) :=
  match msg_data with
  | [] => Some emails
  | first :: _ =>
      if String.eqb status "OK" && truthy_item first then
        full_message ← item_literal first;
        let msg := message_from_bytes full_message in
        let from_header := h_from (msg_headers msg) in
        let '(name, addr) :=
          if truthy_str from_header then parseaddr from_header
          else (EmptyString, EmptyString) in
        subj ← decode_subject (h_subject (msg_headers msg));
        let dt := h_date (msg_headers msg) in
        i ← msg_id;
        Some (emails ++ [ {| id := i; from_name := name; from_addr := addr;
                             subject := subj; date := dt |} ])
      else Some emails
  end.

(** One turn of a fetch loop: [try: ... except Exception: continue]. *)
Definition fetch_turn (message_set : string) (msg_id : option msgid)
    (emails : list summary) : imap (list summary) :=
  try_except
    (r <- mail_fetch message_set RFC822 ;;
     let '(status, msg_data) := r in
     lift (raising (append_summary msg_id status msg_data emails)))
    (imap_ret emails).

(** *** get_recent_emails (lines 74-119) *)

Definition get_recent_emails (count : Z) (folder : string) : imap (list summary) :=
  try_except
    (r <- mail_select folder ;;
     let '(status, messages) := r in
     if negb (String.eqb status "OK") then imap_ret []
     else
       num_messages <- lift (raising (b ← first_bytes messages; py_int b)) ;;
       for_in (range_down num_messages (num_messages - count))
         (fun i emails => fetch_turn (py_str i) (Some (IdInt i)) emails)
         [])
    (imap_ret []).

(** *** search_emails (lines 122-168) *)

Definition search_criterion (keyword : string) : string :=
  "(SUBJECT " +:+ String dquote (keyword +:+ String dquote ")").

Definition fetch_ids (email_ids : list string) : imap (list summary) :=
  for_in (slice_last 10 email_ids)
    (fun email_id emails =>
       fetch_turn email_id (IdStr <$> bytes_decode email_id) emails)
    [].

Definition search_emails (keyword folder : string) : imap (list summary) :=
  try_except
    (r <- mail_select folder ;;
     let '(status, messages) := r in
     if negb (String.eqb status "OK") then imap_ret []
     else
       r <- mail_search (search_criterion keyword) ;;
       let '(status, message_ids) := r in
       if negb (String.eqb status "OK") then imap_ret []
       else
         email_ids <- lift (raising (bytes_split <$> first_bytes message_ids)) ;;
         fetch_ids email_ids)
    (imap_ret []).

(** *** get_unread_emails (lines 171-220) *)

Definition get_unread_emails (folder : string) : imap (list summary) :=
  try_except
    (r <- mail_select folder ;;
     let '(status, messages) := r in
     if negb (String.eqb status "OK") then imap_ret []
     else
       r <- mail_search "(UNSEEN)" ;;
       let '(status, message_ids) := r in
       if negb (String.eqb status "OK") then imap_ret []
       else
         email_ids <- lift (raising (bytes_split <$> first_bytes message_ids)) ;;
         match email_ids with
         | [] => imap_ret []
         | _ => fetch_ids email_ids
         end)
    (imap_ret []).

(** *** read_email (lines 223-276) *)

(** Lines 253-260: the loop over [msg.walk()], [body] being the variable
    assigned before the [break]. *)
Fixpoint first_plain (parts : list message) (body : string) : string :=
  match parts with
  | [] => body
  | part :: rest =>
      if String.eqb (get_content_type part) "text/plain" then
        match payload_text part with
        | Some text => text
        | None => first_plain rest body
        end
      else first_plain rest body
  end.

(** Lines 251-265. *)
Definition message_body (msg : message) : string :=
  if is_multipart msg then first_plain (walk msg) ""
  else match payload_text msg with
       | Some text => text
       | None => unparsable_body
       end.

Definition read_email (email_id folder : string) : imap (option detail) :=
  try_except
    (r <- mail_select folder ;;
     let '(status, messages) := r in
     if negb (String.eqb status "OK") then imap_ret None
     else
       r <- mail_fetch email_id RFC822 ;;
       let '(status, msg_data) := r in
       match msg_data with
       | [] => imap_ret None
       | first :: _ =>
           if negb (String.eqb status "OK") || negb (truthy_item first)
           then imap_ret None
           else
             full_message <- lift (raising (item_literal first)) ;;
             let msg := message_from_bytes full_message in
             let from_header := h_from (msg_headers msg) in
             let '(name, addr) := parseaddr from_header in
             subj <- lift (raising (decode_subject (h_subject (msg_headers msg)))) ;;
             let dt := h_date (msg_headers msg) in
             let body := message_body msg in
             imap_ret (Some {| d_from_name := name; d_from_addr := addr;
                               d_subject := subj; d_date := dt;
                               d_body := slice_to 2000 body |})
       end)
    (imap_ret None).

(** *** print_emails_table (lines 279-300)

    Only the control flow is kept: [',' in date] raises [TypeError] when a
    summary carries no date. *)
Definition print_emails_table (emails : list summary) : outcome unit :=
  if forallb (fun e => bool_decide (is_Some (date e))) emails then Ret tt
  else Raise Exception.

(** *** main (lines 303-361) *)

Definition dispatch (argv : list string) : imap unit :=
  let command := default "" (argv !! 1) in
  if String.eqb command "recent" then
    count <- lift (if decide (2 < length argv)
                   then raising (py_int (default "" (argv !! 2)))
                   else Ret 5%Z) ;;
    emails <- get_recent_emails count "INBOX" ;;
    lift (print_emails_table emails)
  else if String.eqb command "search" then
    if decide (length argv < 3) then lift (Raise (SystemExit 1))
    else
      emails <- search_emails (default "" (argv !! 2)) "INBOX" ;;
      lift (print_emails_table emails)
  else if String.eqb command "unread" then
    emails <- get_unread_emails "INBOX" ;;
    lift (print_emails_table emails)
  else if String.eqb command "folders" then
    folders <- get_folder_list ;;
    imap_ret tt
  else if String.eqb command "read" then
    if decide (length argv < 3) then lift (Raise (SystemExit 1))
    else
      email_data <- read_email (default "" (argv !! 2)) "INBOX" ;;
      imap_ret tt
  else imap_ret tt.

(** The outcome of the process and the connection it leaves behind, if one
    was opened. *)
Definition main (argv : list string) (net : server)
  : outcome unit * option IMAP4 :=
  if decide (length argv < 2) then (Raise (SystemExit 1), None)
  else
    match connect_mailbox net with
    | Raise e => (Raise e, None)
    | Ret mail =>
        let '(r, mail') := (u <- dispatch argv ;; mail_logout) mail in
        (r, Some mail')
    end.

End Script.

(** * Reading the replies

    The definitions of this part name what the statements below speak of:
    which replies count as "no message", what a reply contributes to a
    result, the shape of a listing line. *)

(** A reply that the guard [status == 'OK' and msg_data and msg_data[0]]
    (and its negation in [read_email]) treats as "no message". *)
Definition no_message (r : reply) : bool :=
  match r with
  | Failure => true
  | Reply status [] => true
  | Reply status (first :: _) => negb (String.eqb status "OK" && truthy_item first)
  end.

(** The identifiers a reply to [SEARCH] yields; the empty list stands for
    every path that returns [[]] before the fetch loop. *)
Definition match_list (r : reply) : list string :=
  match r with
  | Failure => []
  | Reply status message_ids =>
      if String.eqb status "OK" then default [] (bytes_split <$> first_bytes message_ids)
      else []
  end.

(** Whether [mail.select] answers [OK]. *)
Definition opens (r : reply) : bool :=
  match r with
  | Failure => false
  | Reply status _ => String.eqb status "OK"
  end.

(** Whether the character [c] occurs in [s]. *)
Fixpoint occurs (c : ascii) (s : string) : bool :=
  match s with
  | EmptyString => false
  | String c' s' => Ascii.eqb c' c || occurs c s'
  end.

(** One line of the listing as servers send it: some text (flags and the
    hierarchy delimiter), the folder token between double quotes, and
    whatever follows the closing quote. *)
Record entry : Type := {
  e_before : string;
  e_token : string;
  e_after : string
}.

(** The decoded text of the line. *)
Definition entry_line (e : entry) : string :=
  e_before e +:+ String dquote (e_token e +:+ String dquote (e_after e)).

(** The token is what stands between the last two quotes of the line. *)
Definition well_quoted (e : entry) : Prop :=
  occurs dquote (e_token e) = false /\ occurs dquote (e_after e) = false.

(** The final path segment of an identifier, surrounding blanks and quotes
    removed (line 66). *)
Definition final_segment (s : string) : string :=
  strip (Ascii.eqb dquote) (strip str_isspace (default s (index_last (split_on slash s)))).

#[global] Instance command_eq_dec : EqDecision command.
Proof. solve_decision. Defined.

(** How many times [mail.logout()] was called on a connection. *)
Definition logouts (mail : IMAP4) : nat :=
  length (filter (fun cmd => cmd = LOGOUT) (sent mail)).

(** Code that never logs out, however it ends. *)
Definition quiet {A : Type} (m : imap A) : Prop :=
  forall mail, logouts (m mail).2 = logouts mail.

(** Code that keeps talking to the same peer. *)
Definition steady {A : Type} (m : imap A) : Prop :=
  forall mail, peer (m mail).2 = peer mail.

(** How [mail.logout()] ends with a given peer. *)
Definition logout_outcome (net : server) : outcome unit :=
  match srv_logout net with
  | Reply _ _ => Ret tt
  | Failure => Raise Exception
  end.

Section Replies.
Context `{Library}.

(** The summaries a reply to [FETCH] contributes: none or one. *)
Definition fetched (msg_id : option msgid) (r : reply) : list summary :=
  match r with
  | Failure => []
  | Reply status msg_data => default [] (append_summary msg_id status msg_data [])
  end.

(** What the fetch loop of the two searches collects from a list of
    identifiers, and the loop of [get_recent_emails] from a list of numbers. *)
Definition fetched_ids (net : server) (folder : string) (email_ids : list string)
  : list summary :=
  concat ((fun email_id =>
             fetched (IdStr <$> bytes_decode email_id) (srv_fetch net folder email_id))
          <$> slice_last 10 email_ids).

Definition fetched_range (net : server) (folder : string) (ns : list Z)
  : list summary :=
  concat ((fun i => fetched (Some (IdInt i)) (srv_fetch net folder (py_str i))) <$> ns).

(** The message count announced by [SELECT], when it is there and [int]
    accepts it. *)
Definition announced (r : reply) : option Z :=
  match r with
  | Failure => None
  | Reply status messages =>
      if String.eqb status "OK" then b ← first_bytes messages; py_int b else None
  end.

(** The structured header block of the first element of a [FETCH] reply:
    the parsed message and its decoded subject.  [None] when the element is
    not a [(header, literal)] pair or when [decode_subject] raises. *)
Definition envelope (first : item) : option (message * string) :=
  full_message ← item_literal first;
  let msg := message_from_bytes full_message in
  subj ← decode_subject (h_subject (msg_headers msg));
  Some (msg, subj).

(** The detail [read_email] builds from a parsed message (lines 241-273). *)
Definition detail_of (msg : message) (subj : string) : detail :=
  {| d_from_name := (parseaddr (h_from (msg_headers msg))).1;
     d_from_addr := (parseaddr (h_from (msg_headers msg))).2;
     d_subject := subj;
     d_date := h_date (msg_headers msg);
     d_body := slice_to 2000 (message_body msg) |}.

(** What [read_email] makes of the reply to its [FETCH]. *)
Definition read_reply (r : reply) : option detail :=
  match r with
  | Failure => None
  | Reply status [] => None
  | Reply status (first :: _) =>
      if no_message r then None
      else '(msg, subj) ← envelope first; Some (detail_of msg subj)
  end.

(** The display name of one element of the listing. *)
Definition entry_name (folder : item) : option string :=
  b ← item_bytes folder; decode ← bytes_decode b; folder_name decode.

(** The summary a fetch loop builds from a parsed message (lines 94-112). *)
Definition summary_of (i : msgid) (msg : message) (subj : string) : summary :=
  let from_header := h_from (msg_headers msg) in
  let sender := if truthy_str from_header then parseaddr from_header
                else (EmptyString, EmptyString) in
  {| id := i; from_name := sender.1; from_addr := sender.2;
     subject := subj; date := h_date (msg_headers msg) |}.

End Replies.

(** * The table printed by [print_emails_table] (lines 279-300)

    [print_emails_table] above keeps the control flow only.  Here is the
    text as well: one string for each call of [print], in order, and how
    the function ends. *)

Definition comma : ascii := ","%char.
Definition newline : ascii := "010"%char.

(** [s * n]. *)
Fixpoint str_repeat (s : string) (n : nat) : string :=
  match n with
  | O => EmptyString
  | S n' => s +:+ str_repeat s n'
  end.

(** Line 289: [email.get('from_name') or email.get('from_addr', '')]. *)
Definition from_display (email : summary) : string :=
  if String.eqb (from_name email) "" then from_addr email else from_name email.

(** Lines 294-295, for a date that is a [str]. *)
Definition display_date (dt : string) : string :=
  if occurs comma dt
  then slice_to 20 (strip str_isspace (default EmptyString (split_on comma dt !! 1)))
  else dt.

(** Lines 289-300: the four lines of one message; [None] when [',' in date]
    raises because the summary has no date. *)
Definition table_rows (i : Z) (email : summary) : option (list string) :=
  dt ← date email;
  Some [ py_str i +:+ ". " +:+ from_display email;
         "   主题: " +:+ subject email;
         "   日期: " +:+ display_date dt;
         str_repeat "-" 80 ].

(** The loop of line 288, [i] being the number of the next message. *)
Fixpoint print_rows (i : Z) (emails : list summary) : list string * outcome unit :=
  match emails with
  | [] => ([], Ret tt)
  | email :: rest =>
      match table_rows i email with
      | None => ([], Raise Exception)
      | Some rows =>
          let '(out, r) := print_rows (i + 1) rest in (rows ++ out, r)
      end
  end.

Definition print_emails_table_lines (emails : list summary) (title : string)
  : list string * outcome unit :=
  match emails with
  | [] => (["没有找到邮件"%string], Ret tt)
  | _ =>
      let '(out, r) := print_rows 1 emails in
      (String newline ("📧 " +:+ title) :: str_repeat "=" 80 :: out, r)
  end.

(** * A small mailbox to run the operations on *)

Module Fixture.

Definition quoted (s : string) : string := String dquote (s +:+ String dquote "").

Definition no_headers : headers :=
  {| h_from := None; h_subject := None; h_date := None |}.

Definition hdrs (f s d : string) : headers :=
  {| h_from := Some f; h_subject := Some s; h_date := Some d |}.

(** The messages of the mailbox, by the text of their literal. *)
Definition parse (raw : string) : message :=
  if String.eqb raw "plain" then
    Leaf (hdrs "Ann <ann@example.com>" "invoice 1" "Mon, 01 Jan 2024 10:00:00 +0000")
         "text/plain" (Some "first body")
  else if String.eqb raw "nofrom" then
    Leaf {| h_from := None; h_subject := Some "invoice 2";
            h_date := Some "Tue, 02 Jan 2024 10:00:00 +0000" |}
         "text/plain" (Some "second body")
  else if String.eqb raw "alternative" then
    Multipart (hdrs "bob@example.com" "invoice 3" "Wed, 03 Jan 2024 10:00:00 +0000")
      "multipart/alternative"
      [ Leaf no_headers "text/html" (Some "<p>third body</p>");
        Leaf no_headers "text/plain" (Some "third body") ]
  else if String.eqb raw "undecodable" then
    Leaf (hdrs "eve@example.com" "invoice 4" "Thu, 04 Jan 2024 10:00:00 +0000")
         "text/plain" None
  else if String.eqb raw "undecodable part" then
    Multipart (hdrs "eve@example.com" "invoice 5" "Fri, 05 Jan 2024 10:00:00 +0000")
      "multipart/mixed"
      [ Leaf no_headers "text/plain" None ]
  else if String.eqb raw "bad charset" then
    Leaf (hdrs "dan@example.com" "=?x-unknown?q?invoice?=" "Sat, 06 Jan 2024 10:00:00 +0000")
         "text/plain" (Some "sixth body")
  else Leaf no_headers "text/plain" (Some raw).

(** A library for ASCII input: decimal [int], identity decoding, [utf-8] as
    the one known codec, the whole field as the address, and the subject
    ["=?x-unknown?q?invoice?="] as the one encoded word (in an unknown
    character set). *)
Definition lib : Library := {|
  py_int := fun s => Z.of_int <$> NilZero.int_of_string s;
  bytes_decode := Some;
  bytes_decode_ignore := fun encoding b =>
    if String.eqb encoding "utf-8" then Some b else None;
  message_from_bytes := parse;
  parseaddr_str := fun s => (EmptyString, s);
  decode_header := fun s =>
    if String.eqb s "=?x-unknown?q?invoice?=" then Some [(PBytes "invoice", Some "x-unknown")]
    else Some [(PStr s, None)]
|}.

Definition literal_of (message_set : string) : option string :=
  if String.eqb message_set "1" then Some "plain"
  else if String.eqb message_set "2" then Some "nofrom"
  else if String.eqb message_set "3" then Some "alternative"
  else if String.eqb message_set "4" then Some "undecodable"
  else if String.eqb message_set "5" then Some "undecodable part"
  else if String.eqb message_set "6" then Some "bad charset"
  else None.

Definition listing : list item :=
  [ IBytes ("(\HasNoChildren) " +:+ quoted "/" +:+ " " +:+ quoted "INBOX");
    IBytes ("(\HasNoChildren) " +:+ quoted "/" +:+ " " +:+ quoted "&XfJfUmhj-");
    IBytes ("(\HasNoChildren) " +:+ quoted "/" +:+ " " +:+ quoted "Work/Projects") ].

(** [INBOX] holds six messages; a message set outside [1..6] is answered
    [OK] with no data, as for a sequence number that does not exist. *)
Definition net : server := {|
  srv_login := true;
  srv_select := fun folder =>
    if String.eqb folder "INBOX" then Reply "OK" [IBytes "6"]
    else Reply "NO" [IBytes "folder not found"];
  srv_fetch := fun folder message_set =>
    match literal_of message_set with
    | Some raw => Reply "OK" [ITuple (message_set +:+ " (RFC822 {...}") raw; IBytes ")"]
    | None => Reply "OK" [INone]
    end;
  srv_search := fun folder criterion =>
    if String.eqb criterion "(UNSEEN)" then Reply "OK" [IBytes "5 6"]
    else Reply "OK" [IBytes "1 2 3 4 5 6"];
  srv_list := Reply "OK" listing;
  srv_logout := Reply "BYE" [IBytes "Logging out"]
|}.

Definition mail : IMAP4 := {| peer := net; selected := None; sent := [LOGIN] |}.

(** A server that refuses every command after the login. *)
Definition down : server := {|
  srv_login := true;
  srv_select := fun _ => Failure;
  srv_fetch := fun _ _ => Failure;
  srv_search := fun _ _ => Failure;
  srv_list := Failure;
  srv_logout := Failure
|}.

(** A folder of two messages on a server that rejects a message set outside
    [1..2], as [imaplib] reports a [BAD] answer. *)
Definition small : server := {|
  srv_login := true;
  srv_select := fun folder => Reply "OK" [IBytes "2"];
  srv_fetch := fun folder message_set =>
    if String.eqb message_set "1" then Reply "OK" [ITuple "1 (RFC822 {5}" "plain"; IBytes ")"]
    else if String.eqb message_set "2" then Reply "OK" [ITuple "2 (RFC822 {6}" "nofrom"; IBytes ")"]
    else Failure;
  srv_search := fun _ _ => Reply "OK" [IBytes "1 2"];
  srv_list := Reply "OK" [];
  srv_logout := Reply "BYE" [IBytes "Logging out"]
|}.

(** Fifteen matches. *)
Definition busy : server := {|
  srv_login := true;
  srv_select := fun folder => Reply "OK" [IBytes "15"];
  srv_fetch := fun folder message_set =>
    Reply "OK" [ITuple "(RFC822 {5}" "plain"; IBytes ")"];
  srv_search := fun _ _ => Reply "OK" [IBytes "1 2 3 4 5 6 7 8 9 10 11 12 13 14 15"];
  srv_list := Reply "OK" [];
  srv_logout := Reply "BYE" [IBytes "Logging out"]
|}.

Definition connected (net : server) : IMAP4 :=
  {| peer := net; selected := None; sent := [LOGIN] |}.

(** A multipart message whose first plain-text part does not decode and
    whose second does, and a library for which every literal is that
    message. *)
Definition undecodable_first : message :=
  Multipart no_headers "multipart/mixed"
    [ Leaf no_headers "text/plain" None;
      Leaf no_headers "text/plain" (Some "second part") ].

Definition lib_of (msg : message) : Library := {|
  py_int := fun s => Z.of_int <$> NilZero.int_of_string s;
  bytes_decode := Some;
  bytes_decode_ignore := fun encoding b => Some b;
  message_from_bytes := fun _ => msg;
  parseaddr_str := fun s => (EmptyString, s);
  decode_header := fun s => Some [(PStr s, None)]
|}.

End Fixture.

(** * Facts about the embedding *)

(** ** What one turn of a fetch loop adds *)

Section Facts.
Context `{Library}.

Lemma append_summary_app msg_id status msg_data emails :
  append_summary msg_id status msg_data emails
  = (fun l => emails ++ l) <$> append_summary msg_id status msg_data [].
Proof.
  unfold append_summary. destruct msg_data as [|first rest]; simpl.
  - by rewrite app_nil_r.
  - destruct (String.eqb status "OK" && truthy_item first); simpl;
      [|by rewrite app_nil_r].
    destruct (item_literal first) as [full|]; simpl; [|done].
    destruct (if truthy_str _ then _ else _) as [name addr].
    destruct (decode_subject _) as [subj|]; simpl; [|done].
    by destruct msg_id.
Qed.

Lemma fetched_length msg_id r : length (fetched msg_id r) <= 1.
Proof.
  destruct r as [status msg_data|]; simpl; [|lia].
  unfold append_summary. destruct msg_data as [|first rest]; simpl; [lia|].
  destruct (String.eqb status "OK" && truthy_item first); simpl; [|lia].
  destruct (item_literal first) as [full|]; simpl; [|lia].
  destruct (if truthy_str _ then _ else _) as [name addr].
  destruct (decode_subject _) as [subj|]; simpl; [|lia].
  destruct msg_id; simpl; lia.
Qed.

Lemma fetched_id msg_id r s : s ∈ fetched msg_id r -> msg_id = Some (id s).
Proof.
  destruct r as [status msg_data|]; simpl; [|by intros ?%elem_of_nil].
  unfold append_summary. destruct msg_data as [|first rest]; simpl;
    [by intros ?%elem_of_nil|].
  destruct (String.eqb status "OK" && truthy_item first); simpl;
    [|by intros ?%elem_of_nil].
  destruct (item_literal first) as [full|]; simpl; [|by intros ?%elem_of_nil].
  destruct (if truthy_str _ then _ else _) as [name addr].
  destruct (decode_subject _) as [subj|]; simpl; [|by intros ?%elem_of_nil].
  destruct msg_id; simpl; [|by intros ?%elem_of_nil].
  intros ->%list_elem_of_singleton. done.
Qed.

Lemma fetched_no_message msg_id r : no_message r = true -> fetched msg_id r = [].
Proof.
  destruct r as [status [|first rest]|]; simpl; try done.
  intros Hn. apply negb_true_iff in Hn. by rewrite Hn.
Qed.

(** A failed turn is absorbed: the loop variable is returned as it was, a
    successful one appends; the connection only records the command. *)
Lemma fetch_turn_run message_set msg_id emails mail folder :
  selected mail = Some folder ->
  fetch_turn message_set msg_id emails mail
  = (Ret (emails ++ fetched msg_id (srv_fetch (peer mail) folder message_set)),
     log (FETCH message_set RFC822) mail).
Proof.
  intros Hsel. unfold fetch_turn, try_except, imap_bind, mail_fetch.
  rewrite Hsel. destruct (srv_fetch _ _ _) as [status msg_data|]; simpl.
  - unfold lift. rewrite append_summary_app.
    destruct (append_summary msg_id status msg_data []); simpl; [done|].
    by rewrite app_nil_r.
  - by rewrite app_nil_r.
Qed.

Lemma fetch_loop_run {A : Type} (f : A -> string) (g : A -> option msgid)
    (xs : list A) emails mail folder :
  selected mail = Some folder ->
  for_in xs (fun x acc => fetch_turn (f x) (g x) acc) emails mail
  = (Ret (emails ++ concat ((fun x => fetched (g x) (srv_fetch (peer mail) folder (f x))) <$> xs)),
     {| peer := peer mail; selected := selected mail;
        sent := sent mail ++ ((fun x => FETCH (f x) RFC822) <$> xs) |}).
Proof.
  revert emails mail. induction xs as [|x xs IH]; intros emails mail Hsel; simpl.
  - rewrite !app_nil_r. by destruct mail.
  - unfold imap_bind. rewrite (fetch_turn_run _ _ _ _ folder Hsel).
    rewrite (IH _ (log (FETCH (f x) RFC822) mail) Hsel).
    simpl. rewrite <- !app_assoc. done.
Qed.

End Facts.

(** ** What the three batch operations return *)

Section Batch.
Context `{Library}.

Lemma fetch_ids_run email_ids mail folder :
  selected mail = Some folder ->
  fetch_ids email_ids mail
  = (Ret (fetched_ids (peer mail) folder email_ids),
     {| peer := peer mail; selected := selected mail;
        sent := sent mail ++ ((fun e => FETCH e RFC822) <$> slice_last 10 email_ids) |}).
Proof.
  intros Hsel. unfold fetch_ids.
  by rewrite (fetch_loop_run (fun e => e) (fun e => IdStr <$> bytes_decode e)
                _ _ _ folder Hsel).
Qed.

Lemma get_recent_emails_result count folder mail :
  (get_recent_emails count folder mail).1
  = Ret (match announced (srv_select (peer mail) folder) with
         | Some n => fetched_range (peer mail) folder (range_down n (n - count))
         | None => []
         end).
Proof.
  unfold get_recent_emails, try_except, imap_bind, mail_select, announced.
  destruct (srv_select (peer mail) folder) as [status messages|]; simpl; [|done].
  destruct (String.eqb status "OK") eqn:Hst; simpl; [|done].
  unfold lift. destruct (first_bytes messages) as [b|]; simpl; [|done].
  destruct (py_int b) as [n|]; simpl; [|done].
  rewrite (fetch_loop_run py_str (fun i => Some (IdInt i)) _ _ _ folder); done.
Qed.

Lemma search_emails_result keyword folder mail :
  (search_emails keyword folder mail).1
  = Ret (if opens (srv_select (peer mail) folder)
         then fetched_ids (peer mail) folder
                (match_list (srv_search (peer mail) folder (search_criterion keyword)))
         else []).
Proof.
  unfold search_emails, try_except, imap_bind, mail_select, mail_search, opens, match_list.
  destruct (srv_select (peer mail) folder) as [status messages|]; simpl; [|done].
  destruct (String.eqb status "OK") eqn:Hst; simpl; [|done].
  destruct (srv_search _ _ _) as [status' message_ids|]; simpl; [|done].
  destruct (String.eqb status' "OK"); simpl; [|done].
  unfold lift. destruct (first_bytes message_ids) as [b|]; simpl; [|done].
  rewrite (fetch_ids_run _ _ folder); done.
Qed.

Lemma get_unread_emails_result folder mail :
  (get_unread_emails folder mail).1
  = Ret (if opens (srv_select (peer mail) folder)
         then fetched_ids (peer mail) folder
                (match_list (srv_search (peer mail) folder "(UNSEEN)"))
         else []).
Proof.
  unfold get_unread_emails, try_except, imap_bind, mail_select, mail_search, opens, match_list.
  destruct (srv_select (peer mail) folder) as [status messages|]; simpl; [|done].
  destruct (String.eqb status "OK") eqn:Hst; simpl; [|done].
  destruct (srv_search _ _ _) as [status' message_ids|]; simpl; [|done].
  destruct (String.eqb status' "OK"); simpl; [|done].
  unfold lift. destruct (first_bytes message_ids) as [b|]; simpl; [|done].
  destruct (bytes_split b) as [|e es] eqn:Hb; [done|].
  rewrite (fetch_ids_run _ _ folder); done.
Qed.

Lemma slice_last_length {A : Type} n (l : list A) : length (slice_last n l) <= n.
Proof. unfold slice_last. rewrite length_drop. lia. Qed.

Lemma concat_fetched_length {A : Type} (f : A -> list summary) (xs : list A) :
  (forall x, length (f x) <= 1) -> length (concat (f <$> xs)) <= length xs.
Proof.
  intros Hf. induction xs as [|x xs IH]; [simpl; lia|].
  rewrite fmap_cons, concat_cons, length_app, length_cons.
  specialize (Hf x). lia.
Qed.

Lemma fetched_ids_length net folder email_ids :
  length (fetched_ids net folder email_ids) <= 10.
Proof.
  unfold fetched_ids.
  etrans; [apply concat_fetched_length; intros; apply fetched_length|].
  apply slice_last_length.
Qed.

(** The identifiers of the summaries, in order, are among the decoded
    identifiers of the last ten matches, in order. *)
Lemma fetched_ids_sublist net folder email_ids :
  sublist (id <$> fetched_ids net folder email_ids)
          (omap (fun e => IdStr <$> bytes_decode e) (slice_last 10 email_ids)).
Proof.
  unfold fetched_ids. induction (slice_last 10 email_ids) as [|e es IH]; simpl; [done|].
  rewrite fmap_app.
  pose proof (fetched_length (IdStr <$> bytes_decode e) (srv_fetch net folder e)) as Hlen.
  pose proof (fetched_id (IdStr <$> bytes_decode e) (srv_fetch net folder e)) as Hid.
  destruct (fetched _ _) as [|s [|s' l]]; simpl in *; [| |lia].
  - destruct (IdStr <$> bytes_decode e); [by apply sublist_cons|done].
  - rewrite (Hid s) by apply list_elem_of_here. by apply sublist_skip.
Qed.

End Batch.

(** ** What [read_email] and [get_folder_list] return *)

Section Single.
Context `{Library}.

Lemma read_email_result email_id folder mail :
  (read_email email_id folder mail).1
  = Ret (if opens (srv_select (peer mail) folder)
         then read_reply (srv_fetch (peer mail) folder email_id)
         else None).
Proof.
  unfold read_email, try_except, imap_bind, mail_select, mail_fetch, opens.
  destruct (srv_select (peer mail) folder) as [status messages|]; simpl; [|done].
  destruct (String.eqb status "OK") eqn:Hst; simpl; [|done].
  destruct (srv_fetch _ _ _) as [status' [|first rest]|]; simpl; [done| |done].
  destruct (String.eqb status' "OK"); simpl; [|done].
  destruct (truthy_item first); simpl; [|done].
  unfold lift, envelope. destruct (item_literal first) as [full|]; simpl; [|done].
  unfold detail_of.
  destruct (decode_subject _) as [subj|]; simpl;
    destruct (parseaddr _) as [name addr]; done.
Qed.

Lemma folder_turn_run folder folders mail :
  (decode <- lift (raising (b ← item_bytes folder; bytes_decode b)) ;;
   name <- lift (raising (folder_name decode)) ;;
   imap_ret (folders ++ [name])) mail
  = (match entry_name folder with
     | Some name => Ret (folders ++ [name])
     | None => Raise Exception
     end, mail).
Proof.
  unfold imap_bind, lift, imap_ret, entry_name.
  destruct (item_bytes folder) as [b|]; simpl; [|done].
  destruct (bytes_decode b) as [decode|]; simpl; [|done].
  by destruct (folder_name decode).
Qed.

Lemma folder_loop_run folder_list folders mail :
  for_in folder_list
    (fun folder folders =>
       decode <- lift (raising (b ← item_bytes folder; bytes_decode b)) ;;
       name <- lift (raising (folder_name decode)) ;;
       imap_ret (folders ++ [name]))
    folders mail
  = (match mapM entry_name folder_list with
     | Some names => Ret (folders ++ names)
     | None => Raise Exception
     end, mail).
Proof.
  revert folders. induction folder_list as [|folder rest IH]; intros folders.
  - simpl. by rewrite app_nil_r.
  - change (for_in (folder :: rest) ?body folders mail)
      with (imap_bind (body folder folders) (for_in rest body) mail).
    unfold imap_bind at 1. rewrite folder_turn_run.
    change (mapM entry_name (folder :: rest))
      with (y ← entry_name folder; k ← mapM entry_name rest; Some (y :: k)).
    destruct (entry_name folder) as [name|]; simpl; [|done].
    rewrite IH. destruct (mapM entry_name rest) as [names|]; simpl; [|done].
    by rewrite <- app_assoc.
Qed.

Lemma get_folder_list_run mail :
  get_folder_list mail
  = (Ret (match srv_list (peer mail) with
          | Reply _ folder_list => default [] (mapM entry_name folder_list)
          | Failure => []
          end), log LIST mail).
Proof.
  unfold get_folder_list, try_except, imap_bind, mail_list.
  destruct (srv_list (peer mail)) as [status folder_list|]; simpl; [|done].
  rewrite folder_loop_run. by destruct (mapM entry_name folder_list).
Qed.

Lemma get_folder_list_result mail :
  (get_folder_list mail).1
  = Ret (match srv_list (peer mail) with
         | Reply _ folder_list => default [] (mapM entry_name folder_list)
         | Failure => []
         end).
Proof. by rewrite get_folder_list_run. Qed.

End Single.

(** ** Splitting and slicing *)

Lemma split_on_nonempty sep s : split_on sep s <> [].
Proof.
  destruct s as [|c s]; simpl; [done|].
  destruct (Ascii.eqb c sep); [done|]. by destruct (split_on sep s).
Qed.

Lemma split_on_absent sep s : occurs sep s = false -> split_on sep s = [s].
Proof.
  induction s as [|c s IH]; simpl; [done|].
  intros [Hc Hs]%orb_false_iff. rewrite Hc, (IH Hs). done.
Qed.

(** Splitting at a separator splits the pieces on either side of it. *)
Lemma split_on_sep sep x y :
  split_on sep (x +:+ String sep y) = split_on sep x ++ split_on sep y.
Proof.
  induction x as [|c x IH]; simpl.
  - by rewrite Ascii.eqb_refl.
  - rewrite IH. destruct (Ascii.eqb c sep); [done|].
    pose proof (split_on_nonempty sep x). by destruct (split_on sep x).
Qed.

Lemma split_on_length sep s :
  length (split_on sep s) = S (length (filter (fun c => c = sep) (list_ascii_of_string s))).
Proof.
  induction s as [|c s IH]; simpl; [done|].
  rewrite filter_cons. destruct (Ascii.eqb_spec c sep) as [->|Hne].
  - rewrite decide_True by done. simpl. by rewrite IH.
  - rewrite decide_False by done. rewrite <- IH.
    pose proof (split_on_nonempty sep s). by destruct (split_on sep s).
Qed.

Lemma list_ascii_of_string_app (x y : string) :
  list_ascii_of_string (x +:+ y) = list_ascii_of_string x ++ list_ascii_of_string y.
Proof. induction x as [|c x IH]; simpl; [done|]. by rewrite IH. Qed.

Lemma index_neg2_app {A : Type} (l : list A) x y : index_neg2 (l ++ [x; y]) = Some x.
Proof.
  unfold index_neg2. rewrite length_app. simpl.
  rewrite decide_True by lia.
  replace (length l + 2 - 2) with (length l + 0) by lia.
  by rewrite lookup_app_r, Nat.add_0_r, Nat.sub_diag by lia.
Qed.

Lemma slice_to_length n s : String.length (slice_to n s) <= n.
Proof.
  revert s. induction n as [|n IH]; intros [|c s]; cbv [slice_to]; simpl; try lia.
  fold slice_to. specialize (IH s). lia.
Qed.

Lemma slice_to_short n s : String.length s <= n -> slice_to n s = s.
Proof.
  revert s. induction n as [|n IH]; intros [|c s]; cbv [slice_to]; simpl; try done.
  - lia.
  - fold slice_to. intros Hl. rewrite IH by lia. done.
Qed.

Lemma slice_last_suffix {A : Type} n (l k : list A) :
  length k = n -> slice_last n (l ++ k) = k.
Proof.
  intros Hk. unfold slice_last. rewrite length_app.
  replace (length l + length k - n) with (length l) by lia.
  by rewrite drop_app_length.
Qed.

Lemma range_down_length start stop :
  length (range_down start stop) = Z.to_nat (start - stop).
Proof. unfold range_down. by rewrite length_fmap, length_seq. Qed.

Example recent_3 :
  id <$> default [] (match (get_recent_emails (H:=Fixture.lib) 3 "INBOX" Fixture.mail).1 with
                     | Ret l => Some l | Raise _ => None end)
  = [IdInt 5; IdInt 4].
Proof. vm_compute. reflexivity. Qed.

(** * The properties of the specification *)

(** ** Folder names *)

Lemma folder_name_quoted (e : entry) :
  well_quoted e ->
  folder_name (entry_line e)
  = Some (match folder_map !! e_token e with
          | Some name => name
          | None => e_token e
          end).
Proof.
  intros [Ht Ha]. unfold folder_name, entry_line.
  rewrite split_on_sep, split_on_sep.
  rewrite (split_on_absent _ _ Ht), (split_on_absent _ _ Ha).
  change ([e_token e] ++ [e_after e]) with [e_token e; e_after e].
  pose proof (split_on_nonempty dquote (e_before e)) as Hne.
  rewrite decide_True.
  - rewrite index_neg2_app. simpl. by destruct (folder_map !! e_token e).
  - rewrite length_app. simpl. destruct (split_on dquote (e_before e)); [done|].
    simpl. lia.
Qed.

Lemma folder_name_unquoted (decode : string) :
  length (split_on dquote decode) < 3 ->
  folder_name decode = Some (final_segment decode).
Proof.
  intros Hlen. unfold folder_name, final_segment, index_last.
  rewrite decide_False by lia.
  pose proof (split_on_nonempty slash decode) as Hne.
  destruct (last (split_on slash decode)) as [seg|] eqn:Hlast; [done|].
  by apply last_None in Hlast.
Qed.

Section Folders.
Context `{Library}.

(** C3 (as amended).  A listing line carries the folder token between its
    last two double quotes.  [get_folder_list] shows the mapped name for a
    token of the table and the token itself, whole, for any other token;
    the final path segment with blanks and quotes stripped is shown only for
    a line with fewer than two double quotes, which is not looked up in the
    table. *)
Theorem folder_names_resolved (mail : IMAP4) (status : string)
    (folder_list : list item) (entries : list entry) :
  srv_list (peer mail) = Reply status folder_list ->
  Forall2 (fun folder e =>
             well_quoted e /\
             exists b, folder = IBytes b /\ bytes_decode b = Some (entry_line e))
          folder_list entries ->
  (get_folder_list mail).1
  = Ret ((fun e => match folder_map !! e_token e with
                   | Some name => name
                   | None => e_token e
                   end) <$> entries)
  /\ (forall decode,
        length (split_on dquote decode) < 3 ->
        folder_name decode = Some (final_segment decode)).
Proof.
  intros Hlist Hall. split.
  - rewrite get_folder_list_result, Hlist.
    assert (mapM entry_name folder_list
            = Some ((fun e => match folder_map !! e_token e with
                              | Some name => name
                              | None => e_token e
                              end) <$> entries)) as ->; [|done].
    apply mapM_Some. clear Hlist.
    induction Hall as [|folder e l k [Hq (b & -> & Hb)] _ IH];
      simpl; [constructor|]. constructor; [|done].
    unfold entry_name. simpl. rewrite Hb. simpl. by apply folder_name_quoted.
  - intros decode Hlen. by apply folder_name_unquoted.
Qed.

End Folders.

Lemma folder_names_resolved_witness :
  srv_list (peer Fixture.mail) = Reply "OK" Fixture.listing /\
  (get_folder_list (H:=Fixture.lib) Fixture.mail).1
  = Ret ["INBOX"; "Archive"; "Work/Projects"] /\
  folder_name "(\HasNoChildren) / Work/Projects " = Some "Projects".
Proof.
  split; [reflexivity|].
  cut (Forall2 (fun folder e =>
                  well_quoted e /\
                  exists b, folder = IBytes b
                            /\ bytes_decode (Library:=Fixture.lib) b = Some (entry_line e))
         Fixture.listing
         [ {| e_before := "(\HasNoChildren) " +:+ Fixture.quoted "/" +:+ " ";
              e_token := "INBOX"; e_after := "" |};
           {| e_before := "(\HasNoChildren) " +:+ Fixture.quoted "/" +:+ " ";
              e_token := "&XfJfUmhj-"; e_after := "" |};
           {| e_before := "(\HasNoChildren) " +:+ Fixture.quoted "/" +:+ " ";
              e_token := "Work/Projects"; e_after := "" |} ]).
  - intros Hall.
    destruct (folder_names_resolved (H:=Fixture.lib) Fixture.mail "OK"
                Fixture.listing _ eq_refl Hall) as [Hq Hu].
    split; [exact Hq|].
    apply (Hu "(\HasNoChildren) / Work/Projects "). vm_compute. lia.
  - repeat constructor; eexists; split; reflexivity.
Defined.


(** C3, as the specification words it, fails on a nested folder: the token
    [Work/Projects] is not in the table, and the listing shows it whole,
    where its final path segment is [Projects]. *)
Lemma folder_names_counterexample :
  folder_map !! "Work/Projects" = None /\
  final_segment "Work/Projects" = "Projects" /\
  (get_folder_list (H:=Fixture.lib)
     {| peer := {| srv_login := true; srv_select := fun _ => Failure;
                   srv_fetch := fun _ _ => Failure; srv_search := fun _ _ => Failure;
                   srv_list := Reply "OK"
                     [IBytes ("(\HasNoChildren) " +:+ Fixture.quoted "/" +:+ " "
                              +:+ Fixture.quoted "Work/Projects")];
                   srv_logout := Failure |};
        selected := None; sent := [LOGIN] |}).1
  = Ret ["Work/Projects"] /\
  "Work/Projects" <> final_segment "Work/Projects".
Proof. repeat split; try (vm_compute; reflexivity). vm_compute. discriminate. Qed.

(** ** Search and unread *)

Section Search.
Context `{Library}.

(** The commands [search_emails] sends. *)
Lemma search_emails_sent keyword folder mail :
  sent (search_emails keyword folder mail).2
  = sent mail ++ SELECT folder ::
      (if opens (srv_select (peer mail) folder)
       then SEARCH (search_criterion keyword) ::
              ((fun e => FETCH e RFC822) <$>
                 slice_last 10 (match_list (srv_search (peer mail) folder
                                              (search_criterion keyword))))
       else []).
Proof.
  unfold search_emails, try_except, imap_bind, mail_select, mail_search, opens, match_list.
  destruct (srv_select (peer mail) folder) as [status messages|]; simpl; [|done].
  destruct (String.eqb status "OK") eqn:Hst; simpl; [|done].
  destruct (srv_search _ _ _) as [status' message_ids|]; simpl;
    [|by rewrite <- app_assoc].
  destruct (String.eqb status' "OK"); simpl; [|by rewrite <- app_assoc].
  unfold lift. destruct (first_bytes message_ids) as [b|]; simpl;
    [|by rewrite <- app_assoc].
  rewrite (fetch_ids_run _ _ folder) by done. simpl.
  by rewrite <- !app_assoc.
Qed.

(** C4.  [search_emails] and [get_unread_emails] always return, with at most
    ten summaries; the identifiers of the summaries are, in order, among the
    last ten identifiers of the list the server answered to [SEARCH]. *)
Theorem search_unread_last_ten (mail : IMAP4) (keyword folder : string) :
  (exists emails,
     (search_emails keyword folder mail).1 = Ret emails /\
     length emails <= 10 /\
     sublist (id <$> emails)
       (omap (fun e => IdStr <$> bytes_decode e)
          (slice_last 10
             (match_list (srv_search (peer mail) folder (search_criterion keyword))))))
  /\
  (exists emails,
     (get_unread_emails folder mail).1 = Ret emails /\
     length emails <= 10 /\
     sublist (id <$> emails)
       (omap (fun e => IdStr <$> bytes_decode e)
          (slice_last 10 (match_list (srv_search (peer mail) folder "(UNSEEN)"))))).
Proof.
  split.
  - rewrite search_emails_result. eexists; split; [done|].
    destruct (opens _).
    + split; [apply fetched_ids_length | apply fetched_ids_sublist].
    + split; [simpl; lia | apply sublist_nil_l].
  - rewrite get_unread_emails_result. eexists; split; [done|].
    destruct (opens _).
    + split; [apply fetched_ids_length | apply fetched_ids_sublist].
    + split; [simpl; lia | apply sublist_nil_l].
Qed.

(** C10.  The criterion [search_emails] sends is the keyword between two
    double quotes inside [(SUBJECT ...)], character for character: cut at
    its double quotes, the criterion is the opening text, the pieces of the
    keyword cut at its own double quotes, and the closing parenthesis; so
    each double quote of the keyword adds a piece to the three of a clean
    keyword. *)
Theorem search_criterion_interpolates (mail : IMAP4) (keyword folder : string) :
  list_ascii_of_string (search_criterion keyword)
  = list_ascii_of_string "(SUBJECT " ++ [dquote] ++ list_ascii_of_string keyword
      ++ [dquote] ++ list_ascii_of_string ")"
  /\ sent (search_emails keyword folder mail).2
     = sent mail ++ SELECT folder ::
         (if opens (srv_select (peer mail) folder)
          then SEARCH (search_criterion keyword) ::
                 ((fun e => FETCH e RFC822) <$>
                    slice_last 10 (match_list (srv_search (peer mail) folder
                                                 (search_criterion keyword))))
          else [])
  /\ split_on dquote (search_criterion keyword)
     = "(SUBJECT "%string :: split_on dquote keyword ++ [")"%string]
  /\ length (split_on dquote (search_criterion keyword))
     = 3 + length (filter (fun c => c = dquote) (list_ascii_of_string keyword)).
Proof.
  assert (split_on dquote (search_criterion keyword)
          = "(SUBJECT "%string :: split_on dquote keyword ++ [")"%string]) as Hsplit.
  { unfold search_criterion. rewrite split_on_sep, split_on_sep. done. }
  split; [|split; [apply search_emails_sent|split; [exact Hsplit|]]].
  - unfold search_criterion.
    rewrite list_ascii_of_string_app. simpl list_ascii_of_string at 2.
    by rewrite list_ascii_of_string_app.
  - rewrite Hsplit. simpl. rewrite length_app, split_on_length. simpl. lia.
Qed.

End Search.

(** Fifteen messages match: the ten summaries are those of the identifiers
    6 to 15, oldest first. *)
Example search_15_matches :
  match (search_emails (H:=Fixture.lib) "invoice" "INBOX"
           (Fixture.connected Fixture.busy)).1 with
  | Ret emails => id <$> emails
  | Raise _ => []
  end
  = IdStr <$> ["6"; "7"; "8"; "9"; "10"; "11"; "12"; "13"; "14"; "15"]%string.
Proof. vm_compute. reflexivity. Qed.

(** A keyword with a double quote closes the quoted string early. *)
Example search_criterion_quote :
  split_on dquote (search_criterion ("a" +:+ String dquote " OR ALL " +:+ String dquote "b"))
  = ["(SUBJECT "; "a"; " OR ALL "; "b"; ")"]%string.
Proof. vm_compute. reflexivity. Qed.

(** ** Reading one message *)

Lemma first_plain_skip (before rest : list message) (body : string) :
  Forall (fun p => get_content_type p <> "text/plain"%string) before ->
  first_plain (before ++ rest) body = first_plain rest body.
Proof.
  induction 1 as [|p before Hp _ IH]; simpl; [done|].
  apply String.eqb_neq in Hp. by rewrite Hp.
Qed.

Lemma first_plain_none (parts : list message) (body : string) :
  Forall (fun p => get_content_type p <> "text/plain"%string) parts ->
  first_plain parts body = body.
Proof.
  intros Hall. rewrite <- (app_nil_r parts). by rewrite first_plain_skip.
Qed.

Lemma first_plain_undecodable (parts : list message) (body : string) :
  Forall (fun p => get_content_type p = "text/plain"%string -> payload_text p = None) parts ->
  first_plain parts body = body.
Proof.
  induction 1 as [|p parts Hp _ IH]; simpl; [done|].
  destruct (String.eqb_spec (get_content_type p) "text/plain") as [Hct|_]; [|done].
  by rewrite (Hp Hct).
Qed.

Lemma first_plain_first_decodable (before : list message) (part : message)
    (after : list message) (text body : string) :
  Forall (fun p => get_content_type p = "text/plain"%string -> payload_text p = None)
         before ->
  get_content_type part = "text/plain"%string ->
  payload_text part = Some text ->
  first_plain (before ++ part :: after) body = text.
Proof.
  intros Hbefore Hct Htext.
  induction Hbefore as [|p before Hp _ IH]; simpl.
  - apply String.eqb_eq in Hct. by rewrite Hct, Htext.
  - destruct (String.eqb_spec (get_content_type p) "text/plain") as [Hp'|_]; [|done].
    by rewrite (Hp Hp').
Qed.

Section Read.
Context `{Library}.

(** What [read_email] returns once the folder opens and the server delivers
    a literal whose header block parses. *)
Lemma read_email_delivered mail email_id folder header raw rest subj :
  opens (srv_select (peer mail) folder) = true ->
  srv_fetch (peer mail) folder email_id = Reply "OK" (ITuple header raw :: rest) ->
  decode_subject (h_subject (msg_headers (message_from_bytes raw))) = Some subj ->
  (read_email email_id folder mail).1
  = Ret (Some (detail_of (message_from_bytes raw) subj)).
Proof.
  intros Hopen Hfetch Hsubj.
  rewrite read_email_result, Hopen, Hfetch. simpl.
  unfold envelope. simpl. by rewrite Hsubj.
Qed.

Lemma read_email_some mail email_id folder d :
  (read_email email_id folder mail).1 = Ret (Some d) ->
  exists header raw rest subj,
    srv_fetch (peer mail) folder email_id = Reply "OK" (ITuple header raw :: rest)
    /\ decode_subject (h_subject (msg_headers (message_from_bytes raw))) = Some subj
    /\ d = detail_of (message_from_bytes raw) subj.
Proof.
  rewrite read_email_result. destruct (opens _); [|done].
  destruct (srv_fetch _ _ _) as [status [|first rest]|]; simpl; try done.
  destruct (String.eqb status "OK") eqn:Hst; simpl; [|done].
  apply String.eqb_eq in Hst as ->.
  destruct first as [|b|header raw]; simpl; try done.
  - by destruct (negb _).
  - unfold envelope. simpl.
    destruct (decode_subject _) as [subj|] eqn:Hsubj; simpl; [|done].
    intros [= <-]. by exists header, raw, rest, subj.
Qed.

(** C9.  The body of a detail [read_email] returns is the first 2000
    characters of the body parsed from the message, so it has at most 2000
    characters. *)
Theorem read_email_body_bounded (mail : IMAP4) (email_id folder : string) (d : detail) :
  (read_email email_id folder mail).1 = Ret (Some d) ->
  String.length (d_body d) <= 2000
  /\ exists header raw rest,
       srv_fetch (peer mail) folder email_id = Reply "OK" (ITuple header raw :: rest)
       /\ d_body d = slice_to 2000 (message_body (message_from_bytes raw)).
Proof.
  intros (header & raw & rest & subj & Hfetch & _ & ->)%read_email_some.
  split; [apply slice_to_length|]. by exists header, raw, rest.
Qed.

(** C6 (as amended).  For a multipart message, the body [read_email]
    returns is the text of the first part, in the order of [walk], whose
    content type is [text/plain] and whose payload decodes (cut to 2000
    characters), whatever the parts before and after it are, HTML parts
    among them; when no plain-text part decodes, and so when there is none,
    the body is empty. *)
Theorem read_email_multipart_body (mail : IMAP4) (email_id folder : string)
    (header raw : string) (rest : list item) (subj : string) :
  opens (srv_select (peer mail) folder) = true ->
  srv_fetch (peer mail) folder email_id = Reply "OK" (ITuple header raw :: rest) ->
  decode_subject (h_subject (msg_headers (message_from_bytes raw))) = Some subj ->
  is_multipart (message_from_bytes raw) = true ->
  (forall before part after text,
     walk (message_from_bytes raw) = before ++ part :: after ->
     Forall (fun p => get_content_type p = "text/plain"%string -> payload_text p = None)
            before ->
     get_content_type part = "text/plain"%string ->
     payload_text part = Some text ->
     exists d, (read_email email_id folder mail).1 = Ret (Some d)
               /\ d_body d = slice_to 2000 text)
  /\ (Forall (fun p => get_content_type p = "text/plain"%string -> payload_text p = None)
             (walk (message_from_bytes raw)) ->
      exists d, (read_email email_id folder mail).1 = Ret (Some d)
                /\ d_body d = EmptyString).
Proof.
  intros Hopen Hfetch Hsubj Hmulti.
  rewrite (read_email_delivered _ _ _ _ _ _ _ Hopen Hfetch Hsubj).
  split.
  - intros before part after text Hwalk Hbefore Hct Htext.
    eexists; split; [done|]. simpl. unfold message_body.
    by rewrite Hmulti, Hwalk, (first_plain_first_decodable _ _ _ text).
  - intros Hnone. eexists; split; [done|]. simpl. unfold message_body.
    by rewrite Hmulti, first_plain_undecodable.
Qed.

End Read.

Lemma read_email_body_bounded_witness :
  (read_email (H:=Fixture.lib) "1" "INBOX" Fixture.mail).1
  = Ret (Some {| d_from_name := ""; d_from_addr := "Ann <ann@example.com>";
                 d_subject := "invoice 1";
                 d_date := Some "Mon, 01 Jan 2024 10:00:00 +0000"%string;
                 d_body := "first body" |})
  /\ String.length "first body" <= 2000.
Proof.
  split; [vm_compute; reflexivity|].
  refine (proj1 (read_email_body_bounded (H:=Fixture.lib) Fixture.mail "1" "INBOX"
                   {| d_from_name := ""; d_from_addr := "Ann <ann@example.com>";
                      d_subject := "invoice 1";
                      d_date := Some "Mon, 01 Jan 2024 10:00:00 +0000"%string;
                      d_body := "first body" |} _)).
  vm_compute. reflexivity.
Defined.

(** Message 3 of the fixture: an HTML part, then a plain-text part. *)
Lemma read_email_multipart_body_witness :
  opens (srv_select (peer Fixture.mail) "INBOX") = true /\
  is_multipart (Fixture.parse "alternative") = true /\
  exists d, (read_email (H:=Fixture.lib) "3" "INBOX" Fixture.mail).1 = Ret (Some d)
            /\ d_body d = "third body"%string.
Proof.
  split; [reflexivity|]. split; [reflexivity|].
  refine (proj1 (read_email_multipart_body (H:=Fixture.lib) Fixture.mail "3" "INBOX"
                   "3 (RFC822 {...}" "alternative" [IBytes ")"] "invoice 3"
                   eq_refl eq_refl eq_refl eq_refl)
            [Fixture.parse "alternative";
             Leaf Fixture.no_headers "text/html" (Some "<p>third body</p>"%string)]
            (Leaf Fixture.no_headers "text/plain" (Some "third body"%string))
            [] "third body"%string eq_refl _ eq_refl eq_refl).
  repeat (constructor; [intros Hct; first [reflexivity | discriminate Hct]|]).
  constructor.
Defined.

(** C6, as the specification words it, fails on a multipart message whose
    first plain-text part does not decode: the body is the text of the
    second plain-text part. *)
Lemma read_email_multipart_body_counterexample :
  is_multipart Fixture.undecodable_first = true
  /\ walk Fixture.undecodable_first
     = [ Fixture.undecodable_first;
         Leaf Fixture.no_headers "text/plain" None;
         Leaf Fixture.no_headers "text/plain" (Some "second part"%string) ]
  /\ get_content_type Fixture.undecodable_first <> "text/plain"%string
  /\ payload_text (Leaf Fixture.no_headers "text/plain" None) = None
  /\ (read_email (H:=Fixture.lib_of Fixture.undecodable_first) "1" "INBOX" Fixture.mail).1
     = Ret (Some {| d_from_name := ""; d_from_addr := ""; d_subject := no_subject;
                    d_date := None; d_body := "second part" |}).
Proof. repeat split; try (vm_compute; reflexivity). vm_compute. discriminate. Qed.

(** A long body is cut. *)
Example slice_to_cuts :
  String.length (slice_to 2000 (string_of_list_ascii (replicate 2500 "x"%char))) = 2000.
Proof. vm_compute. reflexivity. Qed.

(** Depth first: the plain text nested in the first subpart comes before
    the plain text that follows that subpart. *)
Example nested_first_plain :
  message_body
    (Multipart Fixture.no_headers "multipart/mixed"
       [ Multipart Fixture.no_headers "multipart/alternative"
           [ Leaf Fixture.no_headers "text/html" (Some "<b>inner</b>"%string);
             Leaf Fixture.no_headers "text/plain" (Some "inner"%string) ];
         Leaf Fixture.no_headers "text/plain" (Some "outer"%string) ])
  = "inner"%string.
Proof. reflexivity. Qed.

(** ** The sender of a message without a [From] header *)

Lemma elem_of_concat_fmap {A B : Type} (f : A -> list B) (xs : list A) x y :
  x ∈ xs -> y ∈ f x -> y ∈ concat (f <$> xs).
Proof.
  intros Hx Hy. induction xs as [|x' xs IH]; [by apply elem_of_nil in Hx|].
  rewrite fmap_cons, concat_cons, elem_of_app.
  apply elem_of_cons in Hx as [->|Hx]; auto.
Qed.

Section Sender.
Context `{Library}.

Lemma fetched_cases msg_id r :
  fetched msg_id r
  = match r with
    | Reply status (first :: _) =>
        if no_message r then []
        else match envelope first, msg_id with
             | Some (msg, subj), Some i => [summary_of i msg subj]
             | _, _ => []
             end
    | _ => []
    end.
Proof.
  destruct r as [status [|first rest]|]; simpl; try done.
  destruct (String.eqb status "OK" && truthy_item first); simpl; [|done].
  unfold envelope. destruct (item_literal first) as [full|]; simpl; [|done].
  unfold summary_of.
  destruct (decode_subject _) as [subj|]; simpl;
    [|by destruct (if truthy_str _ then _ else _)].
  destruct msg_id; simpl; by destruct (if truthy_str _ then _ else _).
Qed.

Lemma fetched_delivered msg_id header raw rest subj i :
  decode_subject (h_subject (msg_headers (message_from_bytes raw))) = Some subj ->
  msg_id = Some i ->
  fetched msg_id (Reply "OK" (ITuple header raw :: rest))
  = [summary_of i (message_from_bytes raw) subj].
Proof.
  intros Hsubj ->. rewrite fetched_cases. simpl. unfold envelope. simpl.
  by rewrite Hsubj.
Qed.

(** C7.  A delivered message without a [From] header, whose subject decodes,
    is not dropped for want of a sender: each of the four operations that
    reaches it returns its record, with the empty string as sender name and
    as sender address. *)
Theorem absent_from_empty_sender (mail : IMAP4) (folder message_set : string)
    (header raw : string) (rest : list item) (subj : string) :
  opens (srv_select (peer mail) folder) = true ->
  srv_fetch (peer mail) folder message_set = Reply "OK" (ITuple header raw :: rest) ->
  h_from (msg_headers (message_from_bytes raw)) = None ->
  decode_subject (h_subject (msg_headers (message_from_bytes raw))) = Some subj ->
  let dt := h_date (msg_headers (message_from_bytes raw)) in
  (forall count n i,
     announced (srv_select (peer mail) folder) = Some n ->
     i ∈ range_down n (n - count) ->
     py_str i = message_set ->
     exists emails,
       (get_recent_emails count folder mail).1 = Ret emails
       /\ {| id := IdInt i; from_name := ""; from_addr := "";
             subject := subj; date := dt |} ∈ emails)
  /\ (forall keyword i,
        message_set ∈ slice_last 10 (match_list (srv_search (peer mail) folder
                                                   (search_criterion keyword))) ->
        bytes_decode message_set = Some i ->
        exists emails,
          (search_emails keyword folder mail).1 = Ret emails
          /\ {| id := IdStr i; from_name := ""; from_addr := "";
                subject := subj; date := dt |} ∈ emails)
  /\ (forall i,
        message_set ∈ slice_last 10 (match_list (srv_search (peer mail) folder "(UNSEEN)")) ->
        bytes_decode message_set = Some i ->
        exists emails,
          (get_unread_emails folder mail).1 = Ret emails
          /\ {| id := IdStr i; from_name := ""; from_addr := "";
                subject := subj; date := dt |} ∈ emails)
  /\ (read_email message_set folder mail).1
     = Ret (Some {| d_from_name := ""; d_from_addr := ""; d_subject := subj;
                    d_date := dt;
                    d_body := slice_to 2000 (message_body (message_from_bytes raw)) |}).
Proof.
  intros Hopen Hfetch Hfrom Hsubj dt.
  assert (forall i, summary_of i (message_from_bytes raw) subj
                    = {| id := i; from_name := ""; from_addr := "";
                         subject := subj; date := dt |}) as Hsum.
  { intros i. unfold summary_of. by rewrite Hfrom. }
  repeat split.
  - intros count n i Hn Hi Hstr.
    rewrite get_recent_emails_result, Hn. eexists; split; [done|].
    unfold fetched_range.
    apply (elem_of_concat_fmap _ _ i); [done|].
    rewrite Hstr, Hfetch, (fetched_delivered _ _ _ _ subj (IdInt i)) by done.
    rewrite Hsum. apply list_elem_of_here.
  - intros keyword i Hin Hdec.
    rewrite search_emails_result, Hopen. eexists; split; [done|].
    unfold fetched_ids.
    apply (elem_of_concat_fmap _ _ message_set); [done|].
    rewrite Hfetch, (fetched_delivered _ _ _ _ subj (IdStr i)) by (by rewrite ?Hdec).
    rewrite Hsum. apply list_elem_of_here.
  - intros i Hin Hdec.
    rewrite get_unread_emails_result, Hopen. eexists; split; [done|].
    unfold fetched_ids.
    apply (elem_of_concat_fmap _ _ message_set); [done|].
    rewrite Hfetch, (fetched_delivered _ _ _ _ subj (IdStr i)) by (by rewrite ?Hdec).
    rewrite Hsum. apply list_elem_of_here.
  - rewrite (read_email_delivered _ _ _ _ _ _ _ Hopen Hfetch Hsubj).
    unfold detail_of. by rewrite Hfrom.
Qed.

End Sender.

(** Message 2 of the two-message folder has no [From] header. *)
Lemma absent_from_empty_sender_witness :
  let mail := Fixture.connected Fixture.small in
  let record i :=
    {| id := i; from_name := ""; from_addr := ""; subject := "invoice 2";
       date := Some "Tue, 02 Jan 2024 10:00:00 +0000"%string |} in
  h_from (msg_headers (Fixture.parse "nofrom")) = None
  /\ (exists emails, (get_recent_emails (H:=Fixture.lib) 5 "INBOX" mail).1 = Ret emails
                     /\ record (IdInt 2) ∈ emails)
  /\ (exists emails, (search_emails (H:=Fixture.lib) "invoice" "INBOX" mail).1 = Ret emails
                     /\ record (IdStr "2") ∈ emails)
  /\ (exists emails, (get_unread_emails (H:=Fixture.lib) "INBOX" mail).1 = Ret emails
                     /\ record (IdStr "2") ∈ emails)
  /\ (read_email (H:=Fixture.lib) "2" "INBOX" mail).1
     = Ret (Some {| d_from_name := ""; d_from_addr := ""; d_subject := "invoice 2";
                    d_date := Some "Tue, 02 Jan 2024 10:00:00 +0000"%string;
                    d_body := "second body" |}).
Proof.
  intros mail record. split; [reflexivity|].
  destruct (absent_from_empty_sender (H:=Fixture.lib) mail "INBOX" "2"
              "2 (RFC822 {6}" "nofrom" [IBytes ")"] "invoice 2"
              eq_refl eq_refl eq_refl eq_refl) as (Hrecent & Hsearch & Hunread & Hread).
  split; [|split; [|split]].
  - apply (Hrecent 5%Z 2%Z 2%Z); [reflexivity| |reflexivity].
    vm_compute. constructor.
  - apply (Hsearch "invoice"%string "2"%string); [|reflexivity].
    vm_compute. constructor. constructor.
  - apply (Hunread "2"%string); [|reflexivity].
    vm_compute. constructor. constructor.
  - exact Hread.
Defined.

(** ** Recent messages *)

Lemma elem_of_range_down start stop i :
  i ∈ range_down start stop -> (stop < i <= start)%Z.
Proof.
  unfold range_down. intros (k & -> & Hk)%list_elem_of_fmap.
  apply elem_of_seq in Hk. lia.
Qed.

Lemma range_down_split start mid stop :
  (stop <= mid <= start)%Z ->
  range_down start stop = range_down start mid ++ range_down mid stop.
Proof.
  intros Hle. unfold range_down.
  replace (Z.to_nat (start - stop))
    with (Z.to_nat (start - mid) + Z.to_nat (mid - stop)) by lia.
  rewrite seq_app, fmap_app. f_equal. simpl.
  replace (seq (Z.to_nat (start - mid)) (Z.to_nat (mid - stop)))
    with (Nat.add (Z.to_nat (start - mid)) <$> seq 0 (Z.to_nat (mid - stop)))
    by (rewrite fmap_add_seq; f_equal; lia).
  rewrite <- list_fmap_compose. apply list_fmap_ext.
  intros _ k _. simpl. lia.
Qed.

Lemma concat_fmap_nil {A B : Type} (f : A -> list B) (xs : list A) :
  (forall x, x ∈ xs -> f x = []) -> concat (f <$> xs) = [].
Proof.
  induction xs as [|x xs IH]; intros Hf; [done|].
  rewrite fmap_cons, concat_cons, (Hf x), IH; [done| |apply list_elem_of_here].
  intros y Hy. apply Hf. by apply list_elem_of_further.
Qed.

Lemma concat_fmap_singletons {A B C : Type} (f : A -> list B) (g : A -> C)
    (key : B -> C) (xs : list A) :
  (forall x, x ∈ xs -> exists y, f x = [y] /\ key y = g x) ->
  length (concat (f <$> xs)) = length xs
  /\ key <$> concat (f <$> xs) = g <$> xs.
Proof.
  induction xs as [|x xs IH]; intros Hf; [done|].
  destruct (Hf x) as (y & Hy & Hkey); [apply list_elem_of_here|].
  destruct IH as [Hlen Hkeys].
  { intros x' Hx'. apply Hf. by apply list_elem_of_further. }
  rewrite !fmap_cons, concat_cons, Hy.
  change ([y] ++ concat (f <$> xs)) with (y :: concat (f <$> xs)).
  by rewrite fmap_cons, !length_cons, Hlen, Hkeys, Hkey.
Qed.

Lemma elem_of_concat_fmap_inv {A B : Type} (f : A -> list B) (xs : list A) y :
  y ∈ concat (f <$> xs) -> exists x, x ∈ xs /\ y ∈ f x.
Proof.
  induction xs as [|x xs IH]; [by intros ?%elem_of_nil|].
  rewrite fmap_cons, concat_cons, elem_of_app. intros [Hy|Hy].
  - exists x. split; [apply list_elem_of_here|done].
  - destruct (IH Hy) as (x' & Hx' & Hy'). exists x'.
    split; [by apply list_elem_of_further|done].
Qed.

Lemma concat_fmap_sublist {A B C : Type} (f : A -> list B) (g : A -> C)
    (key : B -> C) (xs : list A) :
  (forall x, length (f x) <= 1) ->
  (forall x y, y ∈ f x -> key y = g x) ->
  sublist (key <$> concat (f <$> xs)) (g <$> xs).
Proof.
  intros Hlen Hkey. induction xs as [|x xs IH]; [done|].
  rewrite !fmap_cons, concat_cons, fmap_app.
  specialize (Hlen x). specialize (Hkey x).
  destruct (f x) as [|y [|y' l]]; simpl in *; [by apply sublist_cons| |lia].
  rewrite (Hkey y) by apply list_elem_of_here. by apply sublist_skip.
Qed.

Lemma elem_of_range_down_2 start stop i :
  (stop < i <= start)%Z -> i ∈ range_down start stop.
Proof.
  intros Hi. unfold range_down.
  apply (list_elem_of_fmap_2' _ _ (Z.to_nat (start - i))); [|lia].
  apply elem_of_seq. lia.
Qed.

Section Recent.
Context `{Library}.

(** The commands [get_recent_emails] sends once the folder opens and
    announces [n] messages. *)
Lemma get_recent_emails_sent count folder mail n :
  announced (srv_select (peer mail) folder) = Some n ->
  sent (get_recent_emails count folder mail).2
  = sent mail ++ SELECT folder ::
      ((fun i => FETCH (py_str i) RFC822) <$> range_down n (n - count)).
Proof.
  unfold get_recent_emails, try_except, imap_bind, mail_select, announced.
  destruct (srv_select (peer mail) folder) as [status messages|]; simpl; [|done].
  destruct (String.eqb status "OK") eqn:Hst; simpl; [|done].
  unfold lift. destruct (first_bytes messages) as [b|]; simpl; [|done].
  destruct (py_int b) as [n'|]; simpl; [|done]. intros [= ->].
  rewrite (fetch_loop_run py_str (fun i => Some (IdInt i)) _ _ _ folder) by done.
  simpl. by rewrite <- app_assoc.
Qed.

Lemma fetched_elem msg_id r s :
  s ∈ fetched msg_id r ->
  exists header raw rest,
    r = Reply "OK" (ITuple header raw :: rest)
    /\ is_Some (decode_subject (h_subject (msg_headers (message_from_bytes raw)))).
Proof.
  rewrite fetched_cases.
  destruct r as [status [|first rest]|]; try by intros ?%elem_of_nil.
  simpl. destruct (String.eqb status "OK") eqn:Hst; simpl;
    [|by intros ?%elem_of_nil].
  destruct (truthy_item first); simpl; [|by intros ?%elem_of_nil].
  unfold envelope.
  destruct first as [|b|header raw]; simpl; try by intros ?%elem_of_nil.
  destruct (decode_subject _) as [subj|] eqn:Hsubj; simpl;
    [|by intros ?%elem_of_nil].
  intros _. apply String.eqb_eq in Hst as ->.
  exists header, raw, rest. split; [done|]. by eexists.
Qed.

(** C5 (as amended).  In a folder that announces [n] messages, [n] below the
    requested count, on a server that has nothing for a number below 1:
    [get_recent_emails] returns, with the summaries of exactly those of the
    messages [n] down to 1 that are delivered and whose header block
    parses, in that descending order; so with at most [n] summaries, and
    with [n] of them, numbered [n] down to 1, when every message is
    delivered and parses.  It asks for every number from [n] down to
    [n - count + 1], and the answers for the numbers below 1 add nothing. *)
Theorem recent_short_folder (mail : IMAP4) (folder : string) (count : Z) (n : nat)
    (b : string) (rest : list item) :
  srv_select (peer mail) folder = Reply "OK" (IBytes b :: rest) ->
  py_int b = Some (Z.of_nat n) ->
  (Z.of_nat n < count)%Z ->
  (forall i, (i <= 0)%Z -> no_message (srv_fetch (peer mail) folder (py_str i)) = true) ->
  exists emails,
    (get_recent_emails count folder mail).1 = Ret emails
    /\ length emails <= n
    /\ sublist (id <$> emails) (IdInt <$> range_down (Z.of_nat n) 0)
    /\ (forall s, s ∈ emails ->
          exists i header raw rest',
            (1 <= i <= Z.of_nat n)%Z /\ id s = IdInt i
            /\ srv_fetch (peer mail) folder (py_str i)
               = Reply "OK" (ITuple header raw :: rest')
            /\ is_Some (decode_subject (h_subject (msg_headers (message_from_bytes raw)))))
    /\ (forall i header raw rest',
          (1 <= i <= Z.of_nat n)%Z ->
          srv_fetch (peer mail) folder (py_str i) = Reply "OK" (ITuple header raw :: rest') ->
          is_Some (decode_subject (h_subject (msg_headers (message_from_bytes raw)))) ->
          exists s, s ∈ emails /\ id s = IdInt i)
    /\ ((forall i, (1 <= i <= Z.of_nat n)%Z ->
           exists header raw rest',
             srv_fetch (peer mail) folder (py_str i)
             = Reply "OK" (ITuple header raw :: rest')
             /\ is_Some (decode_subject
                           (h_subject (msg_headers (message_from_bytes raw))))) ->
        length emails = n
        /\ id <$> emails = IdInt <$> range_down (Z.of_nat n) 0)
    /\ sent (get_recent_emails count folder mail).2
       = sent mail ++ SELECT folder ::
           ((fun i => FETCH (py_str i) RFC822)
            <$> range_down (Z.of_nat n) (Z.of_nat n - count)).
Proof.
  intros Hsel Hint Hlt Hnone.
  assert (announced (srv_select (peer mail) folder) = Some (Z.of_nat n)) as Hn.
  { rewrite Hsel. simpl. by rewrite Hint. }
  pose (F := fun i => fetched (Some (IdInt i)) (srv_fetch (peer mail) folder (py_str i))).
  assert (fetched_range (peer mail) folder (range_down (Z.of_nat n) (Z.of_nat n - count))
          = concat (F <$> range_down (Z.of_nat n) 0)) as Hemails.
  { rewrite (range_down_split (Z.of_nat n) 0 (Z.of_nat n - count)) by lia.
    unfold fetched_range. rewrite fmap_app, concat_app.
    rewrite (concat_fmap_nil _ (range_down 0 _)), app_nil_r; [done|].
    intros i Hi%elem_of_range_down. apply fetched_no_message, Hnone. lia. }
  rewrite get_recent_emails_result, Hn, (get_recent_emails_sent _ _ _ _ Hn), Hemails.
  exists (concat (F <$> range_down (Z.of_nat n) 0)).
  split; [done|]. split; [|split; [|split; [|split; [|split; [|done]]]]].
  - etrans; [apply concat_fetched_length; intros; apply fetched_length|].
    rewrite range_down_length. lia.
  - apply (concat_fmap_sublist F IdInt id).
    + intros i. apply fetched_length.
    + intros i s Hs. apply fetched_id in Hs. by injection Hs.
  - intros s (i & Hi%elem_of_range_down & Hs)%elem_of_concat_fmap_inv.
    pose proof (fetched_id _ _ _ Hs) as Hid. injection Hid as Hid.
    destruct (fetched_elem _ _ _ Hs) as (header & raw & rest' & Hfetch & Hsubj).
    exists i, header, raw, rest'. repeat split; try done; lia.
  - intros i header raw rest' Hi Hfetch [subj Hsubj].
    exists (summary_of (IdInt i) (message_from_bytes raw) subj). split; [|done].
    apply (elem_of_concat_fmap F _ i); [apply elem_of_range_down_2; lia|].
    unfold F. rewrite Hfetch, (fetched_delivered _ _ _ _ subj (IdInt i)) by done.
    apply list_elem_of_here.
  - intros Hexist.
    destruct (concat_fmap_singletons F IdInt id (range_down (Z.of_nat n) 0))
      as [Hlen Hids].
    + intros i Hi%elem_of_range_down.
      destruct (Hexist i) as (header & raw & rest' & Hfetch & subj & Hsubj); [lia|].
      unfold F. rewrite Hfetch, (fetched_delivered _ _ _ _ subj (IdInt i)) by done.
      by eexists.
    + rewrite Hlen, range_down_length. split; [lia|done].
Qed.

End Recent.

(** A folder of two messages, five requested. *)
Lemma recent_short_folder_witness :
  let mail := Fixture.connected Fixture.small in
  srv_select Fixture.small "INBOX" = Reply "OK" [IBytes "2"]
  /\ (2 < 5)%Z
  /\ exists emails,
       (get_recent_emails (H:=Fixture.lib) 5 "INBOX" mail).1 = Ret emails
       /\ length emails = 2
       /\ id <$> emails = [IdInt 2; IdInt 1]
       /\ sent (get_recent_emails (H:=Fixture.lib) 5 "INBOX" mail).2
          = [LOGIN; SELECT "INBOX"; FETCH "2" RFC822; FETCH "1" RFC822;
             FETCH "0" RFC822; FETCH "-1" RFC822; FETCH "-2" RFC822].
Proof.
  intros mail. split; [reflexivity|]. split; [lia|].
  destruct (recent_short_folder (H:=Fixture.lib) mail "INBOX" 5 2 "2" []
              eq_refl eq_refl)
    as (emails & Hret & _ & _ & _ & _ & Hall & Hsent); [lia| |].
  - intros i Hi. simpl.
    destruct (String.eqb (py_str i) "1") eqn:H1.
    { apply String.eqb_eq in H1. exfalso.
      assert (i = 0 \/ i < 0)%Z as [-> | Hneg] by lia; [discriminate|].
      destruct i; try lia. unfold py_str in H1. simpl in H1. discriminate. }
    destruct (String.eqb (py_str i) "2") eqn:H2; [|reflexivity].
    apply String.eqb_eq in H2. exfalso.
    assert (i = 0 \/ i < 0)%Z as [-> | Hneg] by lia; [discriminate|].
    destruct i; try lia. unfold py_str in H2. simpl in H2. discriminate.
  - exists emails. split; [exact Hret|].
    destruct Hall as [Hlen Hids].
    + intros i Hi.
      assert (i = 1 \/ i = 2)%Z as [-> | ->] by lia.
      * exists "1 (RFC822 {5}"%string, "plain"%string, [IBytes ")"].
        split; [reflexivity|]. by eexists.
      * exists "2 (RFC822 {6}"%string, "nofrom"%string, [IBytes ")"].
        split; [reflexivity|]. by eexists.
    + split; [exact Hlen|]. split; [exact Hids | exact Hsent].
Defined.

(** C5, as the specification words it, fails when a message of the folder
    does not parse: the fixture announces six messages and delivers each of
    them, ten are asked for, and five summaries come back, message 6 (a
    subject in an unknown character set) being skipped. *)
Lemma recent_short_folder_counterexample :
  srv_select (peer Fixture.mail) "INBOX" = Reply "OK" [IBytes "6"]
  /\ (6 < 10)%Z
  /\ Forall (fun message_set =>
               exists header raw,
                 srv_fetch (peer Fixture.mail) "INBOX" message_set
                 = Reply "OK" [ITuple header raw; IBytes ")"])
            ["1"; "2"; "3"; "4"; "5"; "6"]%string
  /\ exists emails,
       (get_recent_emails (H:=Fixture.lib) 10 "INBOX" Fixture.mail).1 = Ret emails
       /\ length emails = 5
       /\ id <$> emails = [IdInt 5; IdInt 4; IdInt 3; IdInt 2; IdInt 1].
Proof.
  split; [reflexivity|]. split; [lia|]. split.
  - repeat constructor; eexists _, _; reflexivity.
  - eexists. split; [vm_compute; reflexivity|]. by split.
Qed.

(** ** Failures *)

Section Failures.
Context `{Library}.

(** C8 (as amended).  [get_folder_list] never raises.  When [mail.list]
    itself fails the result is the empty list; when the call answers and one
    line of the answer cannot be decoded or resolved the result is the empty
    list as well, whatever the other lines are; otherwise the result is the
    list of the names of the lines. *)
Theorem get_folder_list_absorbs_failures (mail : IMAP4) :
  exists folders,
    (get_folder_list mail).1 = Ret folders
    /\ (srv_list (peer mail) = Failure -> folders = [])
    /\ (forall status folder_list,
          srv_list (peer mail) = Reply status folder_list ->
          Exists (fun folder => entry_name folder = None) folder_list ->
          folders = [])
    /\ (forall status folder_list names,
          srv_list (peer mail) = Reply status folder_list ->
          Forall2 (fun folder name => entry_name folder = Some name) folder_list names ->
          folders = names).
Proof.
  rewrite get_folder_list_result. eexists; split; [done|].
  split; [by intros ->|]. split.
  - intros status folder_list -> Hex%mapM_None_2. by rewrite Hex.
  - intros status folder_list names -> Hall%mapM_Some_2. by rewrite Hall.
Qed.

(** C1 (as amended).  In a folder that opens, the three batch operations
    return, in order, what each message they ask for contributes: its
    summary, or nothing when the fetch fails (the call raises, the status is
    not [OK], no data or empty data come back) or the header block does not
    parse (or, in the two searches, the identifier does not decode).
    [read_email] returns [None] on the same fetch failures, a message number
    that does not exist among them, and when the header block does not
    parse.  A body payload that cannot be decoded is not reported: the detail
    is returned, with the fixed placeholder as body for a message that is
    not multipart, and with the undecodable part passed over, an empty body
    if nothing else is plain text, for a multipart one. *)
Theorem batch_skips_read_reports (mail : IMAP4) (folder : string) :
  opens (srv_select (peer mail) folder) = true ->
  (forall count n,
     announced (srv_select (peer mail) folder) = Some n ->
     (get_recent_emails count folder mail).1
     = Ret (concat ((fun i => fetched (Some (IdInt i))
                                (srv_fetch (peer mail) folder (py_str i)))
                    <$> range_down n (n - count))))
  /\ (forall keyword,
        (search_emails keyword folder mail).1
        = Ret (concat ((fun e => fetched (IdStr <$> bytes_decode e)
                                   (srv_fetch (peer mail) folder e))
                       <$> slice_last 10
                             (match_list (srv_search (peer mail) folder
                                            (search_criterion keyword))))))
  /\ (get_unread_emails folder mail).1
     = Ret (concat ((fun e => fetched (IdStr <$> bytes_decode e)
                                (srv_fetch (peer mail) folder e))
                    <$> slice_last 10
                          (match_list (srv_search (peer mail) folder "(UNSEEN)"))))
  /\ (forall msg_id r, no_message r = true -> fetched msg_id r = [])
  /\ (forall msg_id status first rest,
        envelope first = None \/ msg_id = None ->
        fetched msg_id (Reply status (first :: rest)) = [])
  /\ (forall i status first rest msg subj,
        no_message (Reply status (first :: rest)) = false ->
        envelope first = Some (msg, subj) ->
        fetched (Some i) (Reply status (first :: rest)) = [summary_of i msg subj])
  /\ (forall email_id,
        no_message (srv_fetch (peer mail) folder email_id) = true ->
        (read_email email_id folder mail).1 = Ret None)
  /\ (forall email_id status first rest,
        srv_fetch (peer mail) folder email_id = Reply status (first :: rest) ->
        envelope first = None ->
        (read_email email_id folder mail).1 = Ret None)
  /\ (forall email_id status first rest msg subj,
        srv_fetch (peer mail) folder email_id = Reply status (first :: rest) ->
        no_message (Reply status (first :: rest)) = false ->
        envelope first = Some (msg, subj) ->
        (read_email email_id folder mail).1 = Ret (Some (detail_of msg subj))
        /\ (is_multipart msg = false -> payload_text msg = None ->
            d_body (detail_of msg subj) = unparsable_body)
        /\ (is_multipart msg = true ->
            Forall (fun p => get_content_type p = "text/plain"%string ->
                             payload_text p = None) (walk msg) ->
            d_body (detail_of msg subj) = EmptyString)).
Proof.
  intros Hopen. repeat apply conj.
  - intros count n Hn. by rewrite get_recent_emails_result, Hn.
  - intros keyword. by rewrite search_emails_result, Hopen.
  - by rewrite get_unread_emails_result, Hopen.
  - intros msg_id r. apply fetched_no_message.
  - intros msg_id status first rest Hfail. rewrite fetched_cases.
    destruct (no_message _); [done|].
    destruct Hfail as [-> | ->]; [done|]. by destruct (envelope first) as [[??]|].
  - intros i status first rest msg subj Hmsg Henv.
    by rewrite fetched_cases, Hmsg, Henv.
  - intros email_id Hnone. rewrite read_email_result, Hopen.
    destruct (srv_fetch _ _ _) as [status [|first rest]|]; try done.
    unfold read_reply. by rewrite Hnone.
  - intros email_id status first rest Hfetch Henv.
    rewrite read_email_result, Hopen, Hfetch. unfold read_reply.
    destruct (no_message _); [done|]. by rewrite Henv.
  - intros email_id status first rest msg subj Hfetch Hmsg Henv.
    rewrite read_email_result, Hopen, Hfetch. unfold read_reply.
    rewrite Hmsg, Henv. split; [done|]. split.
    + intros Hsingle Htext. simpl. unfold message_body.
      by rewrite Hsingle, Htext.
    + intros Hmulti Hparts. simpl. unfold message_body.
      by rewrite Hmulti, first_plain_undecodable.
Qed.

End Failures.

(** The listing call fails outright. *)
Lemma get_folder_list_absorbs_failures_witness :
  srv_list Fixture.down = Failure
  /\ exists folders,
       (get_folder_list (H:=Fixture.lib) (Fixture.connected Fixture.down)).1 = Ret folders
       /\ folders = [].
Proof.
  split; [reflexivity|].
  destruct (get_folder_list_absorbs_failures (H:=Fixture.lib)
              (Fixture.connected Fixture.down)) as (folders & Hret & Hfail & _).
  exists folders. split; [exact Hret|]. apply Hfail. reflexivity.
Defined.

(** C8, as the specification words it, fails when [mail.list] raises: the
    caller gets the empty list, not the exception. *)
Lemma get_folder_list_counterexample :
  srv_list (peer (Fixture.connected Fixture.down)) = Failure
  /\ (get_folder_list (H:=Fixture.lib) (Fixture.connected Fixture.down)).1 = Ret []
  /\ (get_folder_list (H:=Fixture.lib) (Fixture.connected Fixture.down)).1
     <> Raise Exception.
Proof. repeat split; try reflexivity. vm_compute. discriminate. Qed.

(** Messages 4 and 5 of the fixture carry a body that does not decode,
    message 6 a subject in an unknown character set, and there is no
    message 99. *)
Lemma batch_skips_read_reports_witness :
  let mail := Fixture.mail in
  opens (srv_select (peer mail) "INBOX") = true
  /\ (exists emails, (get_recent_emails (H:=Fixture.lib) 3 "INBOX" mail).1 = Ret emails
                     /\ id <$> emails = [IdInt 5; IdInt 4])
  /\ (read_email (H:=Fixture.lib) "99" "INBOX" mail).1 = Ret None
  /\ (read_email (H:=Fixture.lib) "6" "INBOX" mail).1 = Ret None
  /\ (exists d, (read_email (H:=Fixture.lib) "4" "INBOX" mail).1 = Ret (Some d)
                /\ d_body d = unparsable_body).
Proof.
  intros mail.
  destruct (batch_skips_read_reports (H:=Fixture.lib) mail "INBOX" eq_refl)
    as (Hrecent & _ & _ & _ & _ & _ & Hnone & Henv & Hbody).
  split; [reflexivity|]. split; [|split; [|split]].
  - eexists. split; [apply (Hrecent 3%Z 6%Z); reflexivity|]. vm_compute. reflexivity.
  - apply Hnone. reflexivity.
  - apply (Henv "6"%string "OK"%string
             (ITuple "6 (RFC822 {...}" "bad charset") [IBytes ")"]); reflexivity.
  - destruct (Hbody "4"%string "OK"%string
                (ITuple "4 (RFC822 {...}" "undecodable") [IBytes ")"]
                (Fixture.parse "undecodable") "invoice 4"%string
                eq_refl eq_refl eq_refl) as (Hread & Hsingle & _).
    eexists. split; [exact Hread|]. apply Hsingle; reflexivity.
Defined.

(** C1, as the specification words it, fails on a message whose body does
    not decode: [read_email] returns a detail, with an empty body for the
    multipart message 5 and with the placeholder for message 4, where the
    specification has the not-found outcome. *)
Lemma read_email_counterexample :
  payload_text (Leaf Fixture.no_headers "text/plain" None) = None
  /\ walk (Fixture.parse "undecodable part")
     = [Fixture.parse "undecodable part"; Leaf Fixture.no_headers "text/plain" None]
  /\ (read_email (H:=Fixture.lib) "5" "INBOX" Fixture.mail).1
     = Ret (Some {| d_from_name := ""; d_from_addr := "eve@example.com";
                    d_subject := "invoice 5";
                    d_date := Some "Fri, 05 Jan 2024 10:00:00 +0000"%string;
                    d_body := "" |})
  /\ payload_text (Fixture.parse "undecodable") = None
  /\ (read_email (H:=Fixture.lib) "4" "INBOX" Fixture.mail).1
     = Ret (Some {| d_from_name := ""; d_from_addr := "eve@example.com";
                    d_subject := "invoice 4";
                    d_date := Some "Thu, 04 Jan 2024 10:00:00 +0000"%string;
                    d_body := unparsable_body |})
  /\ (read_email (H:=Fixture.lib) "5" "INBOX" Fixture.mail).1 <> Ret None.
Proof. repeat split; try (vm_compute; reflexivity). vm_compute. discriminate. Qed.

(** ** The session *)

Lemma logouts_log cmd mail :
  logouts (log cmd mail) = logouts mail + (if decide (cmd = LOGOUT) then 1 else 0).
Proof.
  unfold logouts, log. simpl. rewrite filter_app, length_app. f_equal.
  rewrite filter_cons, filter_nil. by destruct (decide (cmd = LOGOUT)).
Qed.

Lemma quiet_ret {A : Type} (a : A) : quiet (imap_ret a).
Proof. done. Qed.

Lemma quiet_lift {A : Type} (r : outcome A) : quiet (lift r).
Proof. done. Qed.

Lemma quiet_bind {A B : Type} (m : imap A) (k : A -> imap B) :
  quiet m -> (forall a, quiet (k a)) -> quiet (imap_bind m k).
Proof.
  intros Hm Hk mail. unfold imap_bind. specialize (Hm mail).
  destruct (m mail) as [[a|e] mail']; simpl in *; [|done].
  by rewrite Hk.
Qed.

Lemma quiet_try_except {A : Type} (body handler : imap A) :
  quiet body -> quiet handler -> quiet (try_except body handler).
Proof.
  intros Hb Hh mail. unfold try_except. specialize (Hb mail).
  destruct (body mail) as [[a|[|code]] mail']; simpl in *; try done.
  by rewrite Hh.
Qed.

Lemma quiet_for_in {A S : Type} (xs : list A) (body : A -> S -> imap S) (s : S) :
  (forall x s', quiet (body x s')) -> quiet (for_in xs body s).
Proof.
  intros Hbody. revert s. induction xs as [|x xs IH]; intros s; simpl.
  - apply quiet_ret.
  - apply quiet_bind; [apply Hbody | apply IH].
Qed.

Lemma quiet_of_reply r cmd :
  cmd <> LOGOUT -> forall mail, logouts (of_reply r (log cmd mail)).2 = logouts mail.
Proof.
  intros Hcmd mail. destruct r; simpl; rewrite logouts_log, decide_False by done; lia.
Qed.

Lemma quiet_select folder : quiet (mail_select folder).
Proof.
  intros mail. unfold mail_select.
  destruct (srv_select _ _); simpl;
    change (logouts (log (SELECT folder) mail) = logouts mail);
    rewrite logouts_log, decide_False by done; lia.
Qed.

Lemma quiet_fetch message_set message_parts : quiet (mail_fetch message_set message_parts).
Proof.
  intros mail. unfold mail_fetch. destruct (selected mail); [|done].
  by apply quiet_of_reply.
Qed.

Lemma quiet_search criterion : quiet (mail_search criterion).
Proof.
  intros mail. unfold mail_search. destruct (selected mail); [|done].
  by apply quiet_of_reply.
Qed.

Lemma quiet_list : quiet mail_list.
Proof. intros mail. unfold mail_list. by apply quiet_of_reply. Qed.

Section Session.
Context `{Library}.

Lemma get_folder_list_sent (mail : IMAP4) :
  sent (get_folder_list mail).2 = sent mail ++ [LIST].
Proof. by rewrite get_folder_list_run. Qed.

(** A path that reaches the end of [main]: the logout is sent once, and the
    process ends as the logout does. *)
Lemma main_folders_logs_out (net : server) (prog : string) :
  srv_login net = true ->
  exists mail,
    main [prog; "folders"%string] net = (logout_outcome net, Some mail)
    /\ sent mail = [LOGIN; LIST; LOGOUT] /\ logouts mail = 1.
Proof.
  intros Hlogin. unfold main, connect_mailbox. rewrite Hlogin.
  rewrite decide_False by (simpl; lia).
  unfold imap_bind at 1.
  change (dispatch [prog; "folders"%string])
    with (folders <- get_folder_list ;; imap_ret tt).
  unfold imap_bind at 1. rewrite get_folder_list_run.
  unfold imap_ret, mail_logout, logout_outcome. simpl.
  destruct (srv_logout net); eexists; by split.
Qed.

Lemma quiet_fetch_turn message_set msg_id emails :
  quiet (fetch_turn message_set msg_id emails).
Proof.
  apply quiet_try_except; [|apply quiet_ret].
  apply quiet_bind; [apply quiet_fetch|]. intros [status msg_data]. apply quiet_lift.
Qed.

Lemma quiet_fetch_ids email_ids : quiet (fetch_ids email_ids).
Proof. apply quiet_for_in. intros. apply quiet_fetch_turn. Qed.

Lemma quiet_get_recent_emails count folder : quiet (get_recent_emails count folder).
Proof.
  apply quiet_try_except; [|apply quiet_ret].
  apply quiet_bind; [apply quiet_select|]. intros [status messages].
  destruct (negb _); [apply quiet_ret|].
  apply quiet_bind; [apply quiet_lift|]. intros n.
  apply quiet_for_in. intros. apply quiet_fetch_turn.
Qed.

Lemma quiet_search_emails keyword folder : quiet (search_emails keyword folder).
Proof.
  apply quiet_try_except; [|apply quiet_ret].
  apply quiet_bind; [apply quiet_select|]. intros [status messages].
  destruct (negb _); [apply quiet_ret|].
  apply quiet_bind; [apply quiet_search|]. intros [status' message_ids].
  destruct (negb _); [apply quiet_ret|].
  apply quiet_bind; [apply quiet_lift|]. intros email_ids. apply quiet_fetch_ids.
Qed.

Lemma quiet_get_unread_emails folder : quiet (get_unread_emails folder).
Proof.
  apply quiet_try_except; [|apply quiet_ret].
  apply quiet_bind; [apply quiet_select|]. intros [status messages].
  destruct (negb _); [apply quiet_ret|].
  apply quiet_bind; [apply quiet_search|]. intros [status' message_ids].
  destruct (negb _); [apply quiet_ret|].
  apply quiet_bind; [apply quiet_lift|]. intros [|e es];
    [apply quiet_ret | apply quiet_fetch_ids].
Qed.

Lemma quiet_read_email email_id folder : quiet (read_email email_id folder).
Proof.
  apply quiet_try_except; [|apply quiet_ret].
  apply quiet_bind; [apply quiet_select|]. intros [status messages].
  destruct (negb _); [apply quiet_ret|].
  apply quiet_bind; [apply quiet_fetch|]. intros [status' [|first rest]];
    [apply quiet_ret|].
  destruct (_ || _); [apply quiet_ret|].
  apply quiet_bind; [apply quiet_lift|]. intros full_message. cbv zeta.
  destruct (parseaddr _) as [name addr].
  apply quiet_bind; [apply quiet_lift|]. intros subj. apply quiet_ret.
Qed.

Lemma quiet_get_folder_list : quiet get_folder_list.
Proof.
  apply quiet_try_except; [|apply quiet_ret].
  apply quiet_bind; [apply quiet_list|]. intros [status folder_list].
  apply quiet_for_in. intros folder folders.
  apply quiet_bind; [apply quiet_lift|]. intros decode.
  apply quiet_bind; [apply quiet_lift|]. intros name. apply quiet_ret.
Qed.

Lemma quiet_dispatch argv : quiet (dispatch argv).
Proof.
  unfold dispatch.
  repeat match goal with
         | |- quiet (if ?b then _ else _) => destruct b
         | |- quiet (imap_bind _ _) => apply quiet_bind
         | |- forall _, _ => intros ?
         | |- quiet (lift _) => apply quiet_lift
         | |- quiet (imap_ret _) => apply quiet_ret
         | |- quiet (get_recent_emails _ _) => apply quiet_get_recent_emails
         | |- quiet (search_emails _ _) => apply quiet_search_emails
         | |- quiet (get_unread_emails _) => apply quiet_get_unread_emails
         | |- quiet get_folder_list => apply quiet_get_folder_list
         | |- quiet (read_email _ _) => apply quiet_read_email
         end.
Qed.

Lemma steady_ret {A : Type} (a : A) : steady (imap_ret a).
Proof. done. Qed.

Lemma steady_lift {A : Type} (r : outcome A) : steady (lift r).
Proof. done. Qed.

Lemma steady_bind {A B : Type} (m : imap A) (k : A -> imap B) :
  steady m -> (forall a, steady (k a)) -> steady (imap_bind m k).
Proof.
  intros Hm Hk mail. unfold imap_bind. specialize (Hm mail).
  destruct (m mail) as [[a|e] mail']; simpl in *; [|done].
  by rewrite Hk.
Qed.

Lemma steady_try_except {A : Type} (body handler : imap A) :
  steady body -> steady handler -> steady (try_except body handler).
Proof.
  intros Hb Hh mail. unfold try_except. specialize (Hb mail).
  destruct (body mail) as [[a|[|code]] mail']; simpl in *; try done.
  by rewrite Hh.
Qed.

Lemma steady_for_in {A S : Type} (xs : list A) (body : A -> S -> imap S) (s : S) :
  (forall x s', steady (body x s')) -> steady (for_in xs body s).
Proof.
  intros Hbody. revert s. induction xs as [|x xs IH]; intros s; simpl.
  - apply steady_ret.
  - apply steady_bind; [apply Hbody | apply IH].
Qed.

Lemma steady_select folder : steady (mail_select folder).
Proof. intros mail. unfold mail_select. by destruct (srv_select _ _). Qed.

Lemma steady_fetch message_set message_parts : steady (mail_fetch message_set message_parts).
Proof.
  intros mail. unfold mail_fetch. destruct (selected mail); [|done].
  by destruct (srv_fetch _ _ _).
Qed.

Lemma steady_search criterion : steady (mail_search criterion).
Proof.
  intros mail. unfold mail_search. destruct (selected mail); [|done].
  by destruct (srv_search _ _ _).
Qed.

Lemma steady_list : steady mail_list.
Proof. intros mail. unfold mail_list. by destruct (srv_list _). Qed.

Lemma steady_dispatch argv : steady (dispatch argv).
Proof.
  unfold dispatch, get_recent_emails, search_emails, get_unread_emails,
    get_folder_list, read_email, fetch_ids, fetch_turn.
  repeat match goal with
         | |- steady (try_except _ _) => apply steady_try_except
         | |- steady (imap_bind _ _) => apply steady_bind
         | |- steady (for_in _ _ _) => apply steady_for_in
         | |- steady (if ?b then _ else _) => destruct b
         | |- steady (match ?l with [] => _ | _ :: _ => _ end) => destruct l
         | |- steady (let '(_, _) := ?p in _) => destruct p
         | |- forall _, _ => intros ?
         | |- steady (lift _) => apply steady_lift
         | |- steady (imap_ret _) => apply steady_ret
         | |- steady (mail_select _) => apply steady_select
         | |- steady (mail_fetch _ _) => apply steady_fetch
         | |- steady (mail_search _) => apply steady_search
         | |- steady mail_list => apply steady_list
         | _ => progress cbv zeta
         end.
Qed.

(** X17.  Once the session is open, [main] sends at most one logout.  When
    the process returns, the logout was sent once and answered; when it ends
    by [sys.exit], no logout was sent; when it ends by an uncaught
    exception, either no logout was sent (the exception came before the
    last line) or one was and it is the logout that raised. *)
Lemma main_logouts argv net r mail :
  main argv net = (r, Some mail) ->
  match r with
  | Ret _ => logouts mail = 1 /\ logout_outcome net = Ret tt
  | Raise (SystemExit _) => logouts mail = 0
  | Raise Exception =>
      logouts mail = 0 \/ (logouts mail = 1 /\ srv_logout net = Failure)
  end.
Proof.
  unfold main, connect_mailbox. destruct (decide _); [done|].
  destruct (srv_login net); [|done].
  unfold imap_bind.
  pose proof (quiet_dispatch argv {| peer := net; selected := None; sent := [LOGIN] |})
    as Hq.
  pose proof (steady_dispatch argv {| peer := net; selected := None; sent := [LOGIN] |})
    as Hp.
  destruct (dispatch argv _) as [[u|e] mail']; simpl in Hq, Hp.
  - assert (logouts (set_selected None (log LOGOUT mail')) = 1) as Hone.
    { change (logouts (log LOGOUT mail') = 1). rewrite logouts_log, Hq. done. }
    unfold mail_logout, logout_outcome. rewrite Hp.
    destruct (srv_logout net); intros [= <- <-]; [by split|right; by split].
  - intros [= <- <-]. destruct e; [by left|exact Hq].
Qed.

(** C2 (what the code does at the failing input).  With a server that
    accepts the login, [search] without a keyword and [read] without a
    message number end the process by [sys.exit(1)] after the session was
    opened and before any logout. *)
Theorem main_exits_without_logout (net : server) (prog : string) :
  srv_login net = true ->
  (exists mail,
     main [prog; "search"%string] net = (Raise (SystemExit 1), Some mail)
     /\ sent mail = [LOGIN] /\ logouts mail = 0)
  /\ (exists mail,
        main [prog; "read"%string] net = (Raise (SystemExit 1), Some mail)
        /\ sent mail = [LOGIN] /\ logouts mail = 0).
Proof.
  intros Hlogin. unfold main, connect_mailbox. rewrite Hlogin.
  split; eexists; (split; [reflexivity|split; reflexivity]).
Qed.

End Session.

Lemma main_exits_without_logout_witness :
  srv_login Fixture.net = true
  /\ main (H:=Fixture.lib) ["feishu_mail.py"; "search"]%string Fixture.net
     = (Raise (SystemExit 1), Some Fixture.mail)
  /\ logouts Fixture.mail = 0.
Proof.
  split; [reflexivity|].
  destruct (main_exits_without_logout (H:=Fixture.lib) Fixture.net "feishu_mail.py"
              eq_refl) as [(mail & Hmain & Hsent & Hout) _].
  assert (mail = Fixture.mail) as Heq.
  { injection Hmain as <-. reflexivity. }
  rewrite <- Heq. split; [exact Hmain | exact Hout].
Defined.

(** * Further properties of the code *)

(** ** Pieces of strings *)

Lemma split_on_pieces sep s :
  Forall (fun w => occurs sep w = false) (split_on sep s).
Proof.
  induction s as [|c s IH]; simpl; [by repeat constructor|].
  destruct (Ascii.eqb c sep) eqn:Hc; [by constructor|].
  pose proof (split_on_nonempty sep s) as Hne.
  destruct (split_on sep s) as [|w ws]; [done|].
  apply Forall_cons in IH as [Hw Hws]. constructor; [|done].
  simpl. by rewrite Hc.
Qed.

Lemma occurs_lstrip c p s : occurs c s = false -> occurs c (lstrip p s) = false.
Proof.
  induction s as [|a s IH]; simpl; [done|].
  intros [Ha Hs]%orb_false_iff. destruct (p a); [by apply IH|].
  simpl. by rewrite Ha, Hs.
Qed.

Lemma occurs_rstrip c p s : occurs c s = false -> occurs c (rstrip p s) = false.
Proof.
  induction s as [|a s IH]; simpl; [done|].
  intros [Ha Hs]%orb_false_iff. specialize (IH Hs).
  destruct (rstrip p s) as [|b r]; [destruct (p a); simpl; by rewrite ?Ha|].
  simpl in *. by rewrite Ha, IH.
Qed.

Lemma occurs_strip c p s : occurs c s = false -> occurs c (strip p s) = false.
Proof. intros Hs. by apply occurs_rstrip, occurs_lstrip. Qed.

Lemma occurs_slice_to c n s : occurs c s = false -> occurs c (slice_to n s) = false.
Proof.
  revert s. induction n as [|n IH]; intros [|a s]; cbv [slice_to]; try done.
  fold slice_to. simpl. intros [Ha Hs]%orb_false_iff. by rewrite Ha, IH.
Qed.

Lemma lstrip_head p s c r : lstrip p s = String c r -> p c = false.
Proof.
  induction s as [|a s IH]; simpl; [done|].
  destruct (p a) eqn:Ha; [done|]. by intros [= <- _].
Qed.

Lemma rstrip_head p s c r : rstrip p s = String c r -> exists r', s = String c r'.
Proof.
  destruct s as [|a s]; simpl; [done|].
  destruct (rstrip p s); [destruct (p a); [done|]|]; intros [= <- _]; by eexists.
Qed.

Lemma rstrip_last p s c r : p c = true -> rstrip p s <> r +:+ String c EmptyString.
Proof.
  intros Hc. revert r. induction s as [|a s IH]; intros r; simpl.
  - by destruct r.
  - destruct (rstrip p s) as [|b t] eqn:Ht.
    + destruct (p a) eqn:Ha; [by destruct r|].
      destruct r as [|a' [|??]]; simpl; try done. intros [= ->]. congruence.
    + destruct r as [|a' r]; simpl; [done|]. intros [= _ Heq]. by apply (IH r).
Qed.

(** A stripped string neither starts nor ends with a stripped character. *)
Lemma strip_ends p s c r :
  p c = true ->
  strip p s <> String c r /\ strip p s <> r +:+ String c EmptyString.
Proof.
  intros Hc. unfold strip. split; [|by apply rstrip_last].
  intros (r' & Hl)%rstrip_head. apply lstrip_head in Hl. congruence.
Qed.

(** ** The name of a folder listed without quotes *)

(** X1.  For a listing line with fewer than two double quotes, the name
    [get_folder_list] shows (line 66) has no [/] in it and neither starts
    nor ends with a double quote. *)
Theorem folder_name_fallback_shape (decode : string) :
  length (split_on dquote decode) < 3 ->
  exists name,
    folder_name decode = Some name
    /\ occurs slash name = false
    /\ (forall r, name <> String dquote r)
    /\ (forall r, name <> r +:+ String dquote EmptyString).
Proof.
  intros Hlen. exists (final_segment decode).
  split; [by apply folder_name_unquoted|]. unfold final_segment, index_last.
  split.
  - do 2 apply occurs_strip.
    pose proof (split_on_pieces slash decode) as Hall.
    destruct (last (split_on slash decode)) as [seg|] eqn:Hlast; simpl.
    + apply last_Some in Hlast as [l' Hl']. rewrite Hl' in Hall.
      by apply Forall_app in Hall as [_ [Hseg _]%Forall_cons].
    + apply last_None in Hlast. by destruct (split_on_nonempty slash decode).
  - split; intros r; apply strip_ends, Ascii.eqb_refl.
Qed.

Lemma folder_name_fallback_shape_witness :
  length (split_on dquote "(\HasNoChildren) / Work/Projects ") < 3
  /\ exists name,
       folder_name "(\HasNoChildren) / Work/Projects " = Some name
       /\ occurs slash name = false.
Proof.
  split; [vm_compute; lia|].
  destruct (folder_name_fallback_shape "(\HasNoChildren) / Work/Projects ")
    as (name & Hname & Hslash & _); [vm_compute; lia|].
  by exists name.
Defined.

(** ** The printed table *)

Lemma print_rows_all (i : Z) (emails : list summary) :
  Forall (fun e => is_Some (date e)) emails ->
  exists out, print_rows i emails = (out, Ret tt) /\ length out = 4 * length emails.
Proof.
  intros Hall. revert i. induction Hall as [|e emails [dt Hdt] _ IH]; intros i; simpl.
  - by eexists.
  - unfold table_rows. rewrite Hdt. simpl.
    destruct (IH (i + 1)%Z) as (out & -> & Hlen).
    eexists. split; [done|]. simpl. lia.
Qed.

Lemma print_rows_stop (i : Z) (before : list summary) (email : summary)
    (after : list summary) :
  Forall (fun e => is_Some (date e)) before ->
  date email = None ->
  exists out, print_rows i (before ++ email :: after) = (out, Raise Exception)
              /\ length out = 4 * length before.
Proof.
  intros Hall Hnone. revert i.
  induction Hall as [|e before [dt Hdt] _ IH]; intros i; simpl.
  - unfold table_rows. rewrite Hnone. simpl. by eexists.
  - unfold table_rows at 1. rewrite Hdt. simpl.
    destruct (IH (i + 1)%Z) as (out & -> & Hlen).
    eexists. split; [done|]. simpl. lia.
Qed.

Lemma print_emails_table_dates (emails : list summary) :
  print_emails_table emails
  = if forallb (fun e => bool_decide (is_Some (date e))) emails then Ret tt
    else Raise Exception.
Proof. done. Qed.

Lemma forallb_dates (emails : list summary) :
  Forall (fun e => is_Some (date e)) emails ->
  forallb (fun e => bool_decide (is_Some (date e))) emails = true.
Proof.
  induction 1 as [|e emails He _ IH]; simpl; [done|].
  by rewrite bool_decide_true, IH.
Qed.

(** X2.  When every summary has a date, [print_emails_table] returns; it
    prints the single line of the empty table for an empty list, and
    otherwise the title, a rule, and four lines for each summary. *)
Theorem print_emails_table_complete (emails : list summary) (title : string) :
  Forall (fun e => is_Some (date e)) emails ->
  exists out,
    print_emails_table_lines emails title = (out, Ret tt)
    /\ length out = match emails with
                    | [] => 1
                    | _ => 2 + 4 * length emails
                    end
    /\ print_emails_table emails = Ret tt.
Proof.
  intros Hall. rewrite print_emails_table_dates, forallb_dates by done.
  destruct emails as [|e emails]; [by eexists|].
  unfold print_emails_table_lines.
  destruct (print_rows_all 1 (e :: emails) Hall) as (out & -> & Hlen).
  eexists. split; [done|]. split; [|done]. simpl length at 1. rewrite Hlen. done.
Qed.

(** X3.  [print_emails_table] raises at the first summary without a date
    (the [TypeError] of [',' in date]), after it has printed the title, the
    rule and the four lines of each summary before that one; nothing of the
    summaries after it is printed. *)
Theorem print_emails_table_stops (before : list summary) (email : summary)
    (after : list summary) (title : string) :
  Forall (fun e => is_Some (date e)) before ->
  date email = None ->
  exists out,
    print_emails_table_lines (before ++ email :: after) title = (out, Raise Exception)
    /\ length out = 2 + 4 * length before
    /\ print_emails_table (before ++ email :: after) = Raise Exception.
Proof.
  intros Hall Hnone.
  destruct (print_rows_stop 1 before email after Hall Hnone) as (out & Hrows & Hlen).
  exists (String newline ("📧 " +:+ title) :: str_repeat "=" 80 :: out).
  split; [|split].
  - unfold print_emails_table_lines. rewrite Hrows. by destruct before.
  - simpl. lia.
  - rewrite print_emails_table_dates.
    assert (forallb (fun e => bool_decide (is_Some (date e))) (before ++ email :: after)
            = false) as ->; [|done].
    rewrite forallb_app. simpl. rewrite Hnone.
    rewrite bool_decide_false by (by intros [? ?]).
    by rewrite andb_false_r.
Qed.

(** X4.  The date shown in the table: a date without a comma is shown as
    it is; of a date with a comma, what is shown is cut from the text
    between the first comma and the next, so it has no comma and at most 20
    characters. *)
Theorem display_date_shape (dt : string) :
  (occurs comma dt = false -> display_date dt = dt)
  /\ (occurs comma dt = true ->
      String.length (display_date dt) <= 20
      /\ occurs comma (display_date dt) = false
      /\ exists piece,
           split_on comma dt !! 1 = Some piece
           /\ display_date dt = slice_to 20 (strip str_isspace piece)).
Proof.
  unfold display_date. split; intros Hc; rewrite Hc; [done|].
  split; [apply slice_to_length|].
  assert (exists piece, split_on comma dt !! 1 = Some piece) as [piece Hpiece].
  { pose proof (split_on_length comma dt) as Hlen.
    assert (filter (fun c => c = comma) (list_ascii_of_string dt) <> []) as Hne.
    { clear Hlen. induction dt as [|a dt IH]; simpl in *; [done|].
      rewrite filter_cons. destruct (Ascii.eqb_spec a comma) as [->|Hne].
      - by rewrite decide_True.
      - rewrite decide_False by done. apply IH. by simpl in Hc. }
    apply lookup_lt_is_Some. rewrite Hlen.
    destruct (filter _ _); [done|simpl; lia]. }
  rewrite Hpiece. simpl. split; [|by exists piece].
  apply occurs_slice_to, occurs_strip.
  pose proof (split_on_pieces comma dt) as Hall.
  rewrite Forall_lookup in Hall. by apply (Hall 1).
Qed.

Lemma print_emails_table_complete_witness :
  exists out,
    print_emails_table_lines
      [ {| id := IdInt 1; from_name := "Ann"; from_addr := "ann@example.com";
           subject := "hello"; date := Some "Mon, 01 Jan 2024 10:00:00 +0000"%string |} ]
      "recent"
    = (out, Ret tt) /\ length out = 6.
Proof.
  destruct (print_emails_table_complete
              [ {| id := IdInt 1; from_name := "Ann"; from_addr := "ann@example.com";
                   subject := "hello";
                   date := Some "Mon, 01 Jan 2024 10:00:00 +0000"%string |} ]
              "recent") as (out & Hout & Hlen & _).
  - repeat constructor. by eexists.
  - by exists out.
Defined.

Lemma print_emails_table_stops_witness :
  let dated := {| id := IdInt 2; from_name := "Ann"; from_addr := "ann@example.com";
                  subject := "hello";
                  date := Some "Mon, 01 Jan 2024 10:00:00 +0000"%string |} in
  let undated := {| id := IdInt 1; from_name := ""; from_addr := "";
                    subject := "hi"; date := None |} in
  exists out,
    print_emails_table_lines [dated; undated; dated] "recent" = (out, Raise Exception)
    /\ length out = 6.
Proof.
  intros dated undated.
  destruct (print_emails_table_stops [dated] undated [dated] "recent")
    as (out & Hout & Hlen & _).
  - repeat constructor. by eexists.
  - reflexivity.
  - by exists out.
Defined.

Lemma display_date_shape_witness :
  occurs comma "Mon, 01 Jan 2024 10:00:00 +0000" = true
  /\ display_date "Mon, 01 Jan 2024 10:00:00 +0000" = "01 Jan 2024 10:00:00"%string
  /\ String.length (display_date "Mon, 01 Jan 2024 10:00:00 +0000") <= 20.
Proof.
  split; [reflexivity|]. split; [vm_compute; reflexivity|].
  apply (proj2 (display_date_shape "Mon, 01 Jan 2024 10:00:00 +0000")). reflexivity.
Defined.

(** ** Subjects *)

Lemma append_assoc_str (x y z : string) : (x +:+ y) +:+ z = x +:+ (y +:+ z).
Proof.
  induction x as [|c x IH]; [done|].
  change (String c ((x +:+ y) +:+ z) = String c (x +:+ (y +:+ z))). by rewrite IH.
Qed.

Lemma append_empty_r (x : string) : x +:+ "" = x.
Proof.
  induction x as [|c x IH]; [done|].
  change (String c (x +:+ "") = String c x). by rewrite IH.
Qed.

Section Subjects.
Context `{Library}.

Lemma decode_parts_texts decoded texts result :
  Forall2 (fun p t => decode_part p = Some t) decoded texts ->
  decode_parts decoded result = Some (result +:+ foldr String.append "" texts).
Proof.
  intros Hall. revert result.
  induction Hall as [|p t decoded texts Hp _ IH]; intros result; simpl.
  - by rewrite append_empty_r.
  - rewrite Hp. simpl. by rewrite IH, append_assoc_str.
Qed.

Lemma decode_parts_fails decoded result :
  Exists (fun p => decode_part p = None) decoded ->
  decode_parts decoded result = None.
Proof.
  intros Hex. revert result.
  induction Hex as [p decoded Hp|p decoded _ IH]; intros result; simpl.
  - by rewrite Hp.
  - destruct (decode_part p); simpl; [apply IH|done].
Qed.

(** X5.  For a subject that is there and not empty, [decode_subject]
    returns the texts of the parts [decode_header] gives, joined in their
    order with nothing between them, when every part decodes; and it raises
    as soon as one part does not (a [bytes] part in a character set the
    codec registry does not know). *)
Theorem decode_subject_joins (subj : option string)
    (decoded : list (hpart * option string)) :
  truthy_str subj = true ->
  decode_header (default "" subj) = Some decoded ->
  (forall texts,
     Forall2 (fun p t => decode_part p = Some t) decoded texts ->
     decode_subject subj = Some (foldr String.append "" texts))
  /\ (Exists (fun p => decode_part p = None) decoded -> decode_subject subj = None).
Proof.
  intros Htruthy Hdecoded. unfold decode_subject. rewrite Htruthy, Hdecoded. simpl.
  split.
  - intros texts Hall. by rewrite (decode_parts_texts _ texts).
  - apply decode_parts_fails.
Qed.

(** X6.  A delivered message whose [Subject] header is missing or empty is
    not dropped: [get_recent_emails] returns its summary and [read_email]
    its detail, both with the placeholder [(无主题)] as subject. *)
Theorem missing_subject_placeholder (mail : IMAP4) (folder message_set : string)
    (header raw : string) (rest : list item) :
  opens (srv_select (peer mail) folder) = true ->
  srv_fetch (peer mail) folder message_set = Reply "OK" (ITuple header raw :: rest) ->
  truthy_str (h_subject (msg_headers (message_from_bytes raw))) = false ->
  (forall count n i,
     announced (srv_select (peer mail) folder) = Some n ->
     i ∈ range_down n (n - count) ->
     py_str i = message_set ->
     exists emails s,
       (get_recent_emails count folder mail).1 = Ret emails
       /\ s ∈ emails /\ id s = IdInt i /\ subject s = no_subject)
  /\ (exists d, (read_email message_set folder mail).1 = Ret (Some d)
                /\ d_subject d = no_subject).
Proof.
  intros Hopen Hfetch Hsubj.
  assert (decode_subject (h_subject (msg_headers (message_from_bytes raw)))
          = Some no_subject) as Hdec.
  { unfold decode_subject. by rewrite Hsubj. }
  split.
  - intros count n i Hn Hi Hstr.
    rewrite get_recent_emails_result, Hn.
    exists (fetched_range (peer mail) folder (range_down n (n - count))),
           (summary_of (IdInt i) (message_from_bytes raw) no_subject).
    split; [done|]. split; [|done].
    unfold fetched_range. apply (elem_of_concat_fmap _ _ i); [done|].
    rewrite Hstr, Hfetch, (fetched_delivered _ _ _ _ no_subject (IdInt i)) by done.
    apply list_elem_of_here.
  - rewrite (read_email_delivered _ _ _ _ _ _ _ Hopen Hfetch Hdec). by eexists.
Qed.

End Subjects.

(** Two parts, the second in [utf-8] by default. *)
Lemma decode_subject_joins_witness :
  let lib := {| py_int := fun _ => None;
                bytes_decode := Some;
                bytes_decode_ignore := fun encoding b =>
                  if String.eqb encoding "utf-8" then Some b else None;
                message_from_bytes := Fixture.parse;
                parseaddr_str := fun s => (EmptyString, s);
                decode_header := fun s => Some [(PStr "Re: ", None); (PBytes s, None)] |} in
  decode_subject (H:=lib) (Some "invoice"%string) = Some "Re: invoice"%string.
Proof.
  intros lib.
  refine (proj1 (decode_subject_joins (H:=lib) (Some "invoice"%string)
                   [(PStr "Re: ", None); (PBytes "invoice", None)] eq_refl eq_refl)
            ["Re: "; "invoice"]%string _).
  repeat constructor.
Defined.

(** A message without headers as the only one of its folder. *)
Lemma missing_subject_placeholder_witness :
  let net := {| srv_login := true;
                srv_select := fun _ => Reply "OK" [IBytes "1"];
                srv_fetch := fun _ _ => Reply "OK" [ITuple "1 (RFC822 {4}" "text"];
                srv_search := fun _ _ => Failure;
                srv_list := Failure;
                srv_logout := Failure |} in
  truthy_str (h_subject (msg_headers (Fixture.parse "text"))) = false
  /\ (exists emails s,
        (get_recent_emails (H:=Fixture.lib) 1 "INBOX" (Fixture.connected net)).1 = Ret emails
        /\ s ∈ emails /\ id s = IdInt 1 /\ subject s = no_subject)
  /\ (exists d, (read_email (H:=Fixture.lib) "1" "INBOX" (Fixture.connected net)).1
                = Ret (Some d)
                /\ d_subject d = no_subject).
Proof.
  intros net. split; [reflexivity|].
  destruct (missing_subject_placeholder (H:=Fixture.lib) (Fixture.connected net)
              "INBOX" "1" "1 (RFC822 {4}" "text" [] eq_refl eq_refl eq_refl)
    as [Hrecent Hread].
  split; [|exact Hread].
  apply (Hrecent 1%Z 1%Z 1%Z); [reflexivity| |reflexivity].
  vm_compute. constructor.
Defined.

(** ** What the operations send and return *)

Section Commands.
Context `{Library}.

Lemma get_recent_emails_commands count folder mail :
  sent (get_recent_emails count folder mail).2
  = sent mail ++ SELECT folder ::
      match announced (srv_select (peer mail) folder) with
      | Some n => (fun i => FETCH (py_str i) RFC822) <$> range_down n (n - count)
      | None => []
      end.
Proof.
  unfold get_recent_emails, try_except, imap_bind, mail_select, announced.
  destruct (srv_select (peer mail) folder) as [status messages|]; simpl; [|done].
  destruct (String.eqb status "OK") eqn:Hst; simpl; [|done].
  unfold lift. destruct (first_bytes messages) as [b|]; simpl; [|done].
  destruct (py_int b) as [n|]; simpl; [|done].
  rewrite (fetch_loop_run py_str (fun i => Some (IdInt i)) _ _ _ folder) by done.
  simpl. by rewrite <- app_assoc.
Qed.

Lemma get_unread_emails_commands folder mail :
  sent (get_unread_emails folder mail).2
  = sent mail ++ SELECT folder ::
      (if opens (srv_select (peer mail) folder)
       then SEARCH "(UNSEEN)" ::
              ((fun e => FETCH e RFC822) <$>
                 slice_last 10 (match_list (srv_search (peer mail) folder "(UNSEEN)")))
       else []).
Proof.
  unfold get_unread_emails, try_except, imap_bind, mail_select, mail_search, opens, match_list.
  destruct (srv_select (peer mail) folder) as [status messages|]; simpl; [|done].
  destruct (String.eqb status "OK") eqn:Hst; simpl; [|done].
  destruct (srv_search _ _ _) as [status' message_ids|]; simpl;
    [|by rewrite <- app_assoc].
  destruct (String.eqb status' "OK"); simpl; [|by rewrite <- app_assoc].
  unfold lift. destruct (first_bytes message_ids) as [b|]; simpl;
    [|by rewrite <- app_assoc].
  destruct (bytes_split b) as [|e es] eqn:Hb; [simpl; by rewrite <- app_assoc|].
  rewrite (fetch_ids_run _ _ folder) by done. simpl.
  by rewrite <- !app_assoc.
Qed.

Lemma read_email_commands email_id folder mail :
  sent (read_email email_id folder mail).2
  = sent mail ++ SELECT folder ::
      (if opens (srv_select (peer mail) folder) then [FETCH email_id RFC822] else []).
Proof.
  unfold read_email, try_except, imap_bind, mail_select, mail_fetch, opens.
  destruct (srv_select (peer mail) folder) as [status messages|]; simpl; [|done].
  destruct (String.eqb status "OK") eqn:Hst; simpl; [|done].
  destruct (srv_fetch _ _ _) as [status' [|first rest]|]; simpl;
    try by rewrite <- app_assoc.
  destruct (negb (String.eqb status' "OK") || negb (truthy_item first)); simpl;
    [by rewrite <- app_assoc|].
  unfold lift. destruct (item_literal first) as [full|]; simpl;
    [|by rewrite <- app_assoc].
  destruct (parseaddr _) as [name addr].
  destruct (decode_subject _) as [subj|]; simpl; by rewrite <- app_assoc.
Qed.

(** X7.  [get_recent_emails] always returns, with no more summaries than
    the count asked for (none for a count of zero or less); their numbers
    are among [n], [n-1], ..., [n-count+1], in that descending order, [n]
    being the message count the folder announces. *)
Theorem recent_at_most_count (mail : IMAP4) (count : Z) (folder : string) :
  exists emails,
    (get_recent_emails count folder mail).1 = Ret emails
    /\ length emails <= Z.to_nat count
    /\ forall n, announced (srv_select (peer mail) folder) = Some n ->
                 sublist (id <$> emails) (IdInt <$> range_down n (n - count)).
Proof.
  rewrite get_recent_emails_result. eexists. split; [done|].
  destruct (announced _) as [n|]; [|split; [simpl; lia|done]].
  split.
  - unfold fetched_range.
    etrans; [apply concat_fetched_length; intros; apply fetched_length|].
    rewrite range_down_length. lia.
  - intros n' [= <-]. unfold fetched_range.
    apply (concat_fmap_sublist
             (fun i => fetched (Some (IdInt i)) (srv_fetch (peer mail) folder (py_str i)))
             IdInt id).
    + intros i. apply fetched_length.
    + intros i s Hs. apply fetched_id in Hs. by injection Hs.
Qed.

(** X8.  Once the folder opens and announces [n] messages,
    [get_recent_emails] sends one [FETCH] for each of the numbers [n] down
    to [n-count+1], that is [count] commands whatever [n] is: on a folder
    with fewer messages it asks for message 0 and for negative numbers. *)
Theorem recent_sends_count_fetches (mail : IMAP4) (count : Z) (folder : string) (n : Z) :
  announced (srv_select (peer mail) folder) = Some n ->
  sent (get_recent_emails count folder mail).2
  = sent mail ++ SELECT folder ::
      ((fun i => FETCH (py_str i) RFC822) <$> range_down n (n - count))
  /\ length (range_down n (n - count)) = Z.to_nat count
  /\ forall i, i ∈ range_down n (n - count) -> (n - count < i <= n)%Z.
Proof.
  intros Hn. rewrite get_recent_emails_commands, Hn. split; [done|].
  split; [rewrite range_down_length; f_equal; lia|].
  intros i. apply elem_of_range_down.
Qed.

(** X9.  When the folder cannot be opened ([SELECT] raises or answers
    another status than [OK]), the three batch operations return the empty
    list and [read_email] returns [None]; each has sent the [SELECT] and
    nothing after it. *)
Theorem closed_folder_aborts (mail : IMAP4) (folder : string) :
  opens (srv_select (peer mail) folder) = false ->
  (forall count,
     (get_recent_emails count folder mail).1 = Ret []
     /\ sent (get_recent_emails count folder mail).2 = sent mail ++ [SELECT folder])
  /\ (forall keyword,
        (search_emails keyword folder mail).1 = Ret []
        /\ sent (search_emails keyword folder mail).2 = sent mail ++ [SELECT folder])
  /\ ((get_unread_emails folder mail).1 = Ret []
      /\ sent (get_unread_emails folder mail).2 = sent mail ++ [SELECT folder])
  /\ (forall email_id,
        (read_email email_id folder mail).1 = Ret None
        /\ sent (read_email email_id folder mail).2 = sent mail ++ [SELECT folder]).
Proof.
  intros Hopen.
  assert (announced (srv_select (peer mail) folder) = None) as Hn.
  { unfold opens in Hopen. unfold announced.
    destruct (srv_select _ _); [by rewrite Hopen|done]. }
  repeat split.
  - by rewrite get_recent_emails_result, Hn.
  - by rewrite get_recent_emails_commands, Hn.
  - by rewrite search_emails_result, Hopen.
  - by rewrite search_emails_sent, Hopen.
  - by rewrite get_unread_emails_result, Hopen.
  - by rewrite get_unread_emails_commands, Hopen.
  - by rewrite read_email_result, Hopen.
  - by rewrite read_email_commands, Hopen.
Qed.

(** X10.  None of the five operations lets an exception reach its caller,
    whatever the server answers or raises and whatever the library raises
    while decoding. *)
Theorem operations_never_raise (mail : IMAP4) (count : Z)
    (keyword folder email_id : string) :
  (exists folders, (get_folder_list mail).1 = Ret folders)
  /\ (exists emails, (get_recent_emails count folder mail).1 = Ret emails)
  /\ (exists emails, (search_emails keyword folder mail).1 = Ret emails)
  /\ (exists emails, (get_unread_emails folder mail).1 = Ret emails)
  /\ (exists email_data, (read_email email_id folder mail).1 = Ret email_data).
Proof.
  rewrite get_folder_list_result, get_recent_emails_result, search_emails_result,
    get_unread_emails_result, read_email_result.
  repeat split; by eexists.
Qed.

(** X11.  [get_unread_emails] on a folder that opens sends the [SELECT],
    one [SEARCH (UNSEEN)] and one [FETCH] for each of the last ten
    identifiers of the answer, in the order of the answer; when the answer
    has no identifier it sends no [FETCH] and returns the empty list. *)
Theorem unread_commands (mail : IMAP4) (folder : string) :
  opens (srv_select (peer mail) folder) = true ->
  sent (get_unread_emails folder mail).2
  = sent mail ++ SELECT folder :: SEARCH "(UNSEEN)" ::
      ((fun e => FETCH e RFC822) <$>
         slice_last 10 (match_list (srv_search (peer mail) folder "(UNSEEN)")))
  /\ (match_list (srv_search (peer mail) folder "(UNSEEN)") = [] ->
      (get_unread_emails folder mail).1 = Ret []
      /\ sent (get_unread_emails folder mail).2
         = sent mail ++ [SELECT folder; SEARCH "(UNSEEN)"]).
Proof.
  intros Hopen. rewrite get_unread_emails_commands, get_unread_emails_result, Hopen.
  split; [done|]. by intros ->.
Qed.

(** X12.  [read_email] on a folder that opens sends the [SELECT] and one
    [FETCH] whose message set is the identifier it was given, unchanged,
    whatever that text is and whether or not a message comes back. *)
Theorem read_email_fetches_once (mail : IMAP4) (email_id folder : string) :
  opens (srv_select (peer mail) folder) = true ->
  sent (read_email email_id folder mail).2
  = sent mail ++ [SELECT folder; FETCH email_id RFC822].
Proof. intros Hopen. by rewrite read_email_commands, Hopen. Qed.

End Commands.

(** An empty folder, three messages asked for. *)
Lemma recent_sends_count_fetches_witness :
  let net := {| srv_login := true;
                srv_select := fun _ => Reply "OK" [IBytes "0"];
                srv_fetch := fun _ _ => Failure;
                srv_search := fun _ _ => Failure;
                srv_list := Failure;
                srv_logout := Failure |} in
  announced (H:=Fixture.lib) (srv_select net "INBOX") = Some 0%Z
  /\ sent (get_recent_emails (H:=Fixture.lib) 3 "INBOX" (Fixture.connected net)).2
     = [LOGIN; SELECT "INBOX"; FETCH "0" RFC822; FETCH "-1" RFC822; FETCH "-2" RFC822].
Proof.
  intros net. split; [reflexivity|].
  exact (proj1 (recent_sends_count_fetches (H:=Fixture.lib) (Fixture.connected net)
                  3 "INBOX" 0 eq_refl)).
Defined.

(** The fixture has no folder [Archive]. *)
Lemma closed_folder_aborts_witness :
  opens (srv_select (peer Fixture.mail) "Archive") = false
  /\ (read_email (H:=Fixture.lib) "1" "Archive" Fixture.mail).1 = Ret None
  /\ sent (search_emails (H:=Fixture.lib) "invoice" "Archive" Fixture.mail).2
     = [LOGIN; SELECT "Archive"].
Proof.
  split; [reflexivity|].
  destruct (closed_folder_aborts (H:=Fixture.lib) Fixture.mail "Archive" eq_refl)
    as (_ & Hsearch & _ & Hread).
  split; [exact (proj1 (Hread "1"%string)) | exact (proj2 (Hsearch "invoice"%string))].
Defined.

Lemma unread_commands_witness :
  opens (srv_select (peer Fixture.mail) "INBOX") = true
  /\ sent (get_unread_emails (H:=Fixture.lib) "INBOX" Fixture.mail).2
     = [LOGIN; SELECT "INBOX"; SEARCH "(UNSEEN)"; FETCH "5" RFC822; FETCH "6" RFC822].
Proof.
  split; [reflexivity|].
  exact (proj1 (unread_commands (H:=Fixture.lib) Fixture.mail "INBOX" eq_refl)).
Defined.

Lemma read_email_fetches_once_witness :
  opens (srv_select (peer Fixture.mail) "INBOX") = true
  /\ sent (read_email (H:=Fixture.lib) "1:*" "INBOX" Fixture.mail).2
     = [LOGIN; SELECT "INBOX"; FETCH "1:*" RFC822].
Proof.
  split; [reflexivity|].
  exact (read_email_fetches_once (H:=Fixture.lib) Fixture.mail "1:*" "INBOX" eq_refl).
Defined.

(** ** One message, read two ways *)

Lemma prefix_slice_to n s : exists rest, s = slice_to n s +:+ rest.
Proof.
  revert s. induction n as [|n IH]; intros [|c s]; cbv [slice_to];
    try (by eexists). fold slice_to.
  destruct (IH s) as [rest Hrest]. exists rest.
  change (String c s = String c (slice_to n s +:+ rest)). by rewrite <- Hrest.
Qed.

Lemma slice_to_exact n s : n <= String.length s -> String.length (slice_to n s) = n.
Proof.
  revert s. induction n as [|n IH]; intros [|c s]; cbv [slice_to]; simpl;
    try done; try lia.
  fold slice_to. intros Hn. rewrite IH; lia.
Qed.

Section Readings.
Context `{Library}.

(** X13.  A message that [get_recent_emails] lists can be read, and
    [read_email] on its number reports the same sender name, sender
    address, subject and date as the summary. *)
Theorem recent_and_read_agree (mail : IMAP4) (count : Z) (folder : string)
    (emails : list summary) (s : summary) (i : Z) :
  (get_recent_emails count folder mail).1 = Ret emails ->
  s ∈ emails ->
  id s = IdInt i ->
  exists d,
    (read_email (py_str i) folder mail).1 = Ret (Some d)
    /\ d_from_name d = from_name s
    /\ d_from_addr d = from_addr s
    /\ d_subject d = subject s
    /\ d_date d = date s.
Proof.
  rewrite get_recent_emails_result. intros [= <-] Hs Hid.
  destruct (announced _) as [n|] eqn:Hn; [|by apply elem_of_nil in Hs].
  assert (opens (srv_select (peer mail) folder) = true) as Hopen.
  { unfold announced in Hn. unfold opens.
    destruct (srv_select _ _) as [status messages|]; [|done].
    by destruct (String.eqb status "OK"). }
  apply elem_of_concat_fmap_inv in Hs as (j & _ & Hs).
  pose proof (fetched_id _ _ _ Hs) as Hj. rewrite Hid in Hj. injection Hj as ->.
  rewrite fetched_cases in Hs. rewrite read_email_result, Hopen.
  destruct (srv_fetch _ _ _) as [status [|first rest]|];
    try by apply elem_of_nil in Hs.
  unfold read_reply. destruct (no_message _); [by apply elem_of_nil in Hs|].
  destruct (envelope first) as [[msg subj]|]; [|by apply elem_of_nil in Hs].
  apply list_elem_of_singleton in Hs as ->. simpl.
  eexists. split; [done|]. unfold summary_of, detail_of, parseaddr. simpl.
  by destruct (h_from (msg_headers msg)) as [[|c from]|].
Qed.

(** X14.  For a message that is not multipart, the body [read_email]
    returns is its payload, cut to 2000 characters, whatever the content
    type of the message is: the payload of an HTML-only message is
    returned as it is. *)
Theorem read_email_single_part_body (mail : IMAP4) (email_id folder : string)
    (header raw : string) (rest : list item) (subj text : string) :
  opens (srv_select (peer mail) folder) = true ->
  srv_fetch (peer mail) folder email_id = Reply "OK" (ITuple header raw :: rest) ->
  decode_subject (h_subject (msg_headers (message_from_bytes raw))) = Some subj ->
  is_multipart (message_from_bytes raw) = false ->
  payload_text (message_from_bytes raw) = Some text ->
  exists d, (read_email email_id folder mail).1 = Ret (Some d)
            /\ d_body d = slice_to 2000 text.
Proof.
  intros Hopen Hfetch Hsubj Hsingle Htext.
  rewrite (read_email_delivered _ _ _ _ _ _ _ Hopen Hfetch Hsubj).
  eexists. split; [done|]. simpl. unfold message_body. by rewrite Hsingle, Htext.
Qed.

(** X15.  For a multipart message, a plain-text part whose payload does not
    decode is passed over: the body [read_email] returns is the text of the
    first plain-text part, in the order of [walk], that decodes. *)
Theorem read_email_skips_undecodable_part (mail : IMAP4) (email_id folder : string)
    (header raw : string) (rest : list item) (subj : string)
    (before : list message) (part : message) (after : list message) (text : string) :
  opens (srv_select (peer mail) folder) = true ->
  srv_fetch (peer mail) folder email_id = Reply "OK" (ITuple header raw :: rest) ->
  decode_subject (h_subject (msg_headers (message_from_bytes raw))) = Some subj ->
  is_multipart (message_from_bytes raw) = true ->
  walk (message_from_bytes raw) = before ++ part :: after ->
  Forall (fun p => get_content_type p = "text/plain"%string -> payload_text p = None)
         before ->
  get_content_type part = "text/plain"%string ->
  payload_text part = Some text ->
  exists d, (read_email email_id folder mail).1 = Ret (Some d)
            /\ d_body d = slice_to 2000 text.
Proof.
  intros Hopen Hfetch Hsubj Hmulti Hwalk Hbefore Hct Htext.
  rewrite (read_email_delivered _ _ _ _ _ _ _ Hopen Hfetch Hsubj).
  eexists. split; [done|]. simpl. unfold message_body.
  by rewrite Hmulti, Hwalk, (first_plain_first_decodable _ _ _ text).
Qed.

(** X16.  The body of a detail is a prefix of the parsed body: the whole of
    it when it has at most 2000 characters, and exactly its first 2000
    characters when it is longer. *)
Theorem read_email_body_prefix (mail : IMAP4) (email_id folder : string) (d : detail) :
  (read_email email_id folder mail).1 = Ret (Some d) ->
  exists header raw rest cut,
    srv_fetch (peer mail) folder email_id = Reply "OK" (ITuple header raw :: rest)
    /\ message_body (message_from_bytes raw) = d_body d +:+ cut
    /\ (String.length (message_body (message_from_bytes raw)) <= 2000 ->
        d_body d = message_body (message_from_bytes raw))
    /\ (2000 <= String.length (message_body (message_from_bytes raw)) ->
        String.length (d_body d) = 2000).
Proof.
  intros (header & raw & rest & subj & Hfetch & _ & ->)%read_email_some.
  destruct (prefix_slice_to 2000 (message_body (message_from_bytes raw)))
    as [cut Hcut].
  exists header, raw, rest, cut. split; [done|]. split; [exact Hcut|]. split.
  - intros Hshort. simpl. by apply slice_to_short.
  - intros Hlong. simpl. by apply slice_to_exact.
Qed.

End Readings.

Lemma recent_and_read_agree_witness :
  let mail := Fixture.connected Fixture.small in
  let s := {| id := IdInt 2; from_name := ""; from_addr := ""; subject := "invoice 2";
              date := Some "Tue, 02 Jan 2024 10:00:00 +0000"%string |} in
  exists emails d,
    (get_recent_emails (H:=Fixture.lib) 5 "INBOX" mail).1 = Ret emails
    /\ s ∈ emails
    /\ (read_email (H:=Fixture.lib) "2" "INBOX" mail).1 = Ret (Some d)
    /\ d_subject d = "invoice 2"%string.
Proof.
  intros mail s.
  destruct (recent_and_read_agree (H:=Fixture.lib) mail 5 "INBOX"
              [s; {| id := IdInt 1; from_name := "";
                     from_addr := "Ann <ann@example.com>"; subject := "invoice 1";
                     date := Some "Mon, 01 Jan 2024 10:00:00 +0000"%string |}]
              s 2) as (d & Hread & _ & _ & Hsubj & _).
  - vm_compute. reflexivity.
  - constructor.
  - reflexivity.
  - eexists _, d. split; [vm_compute; reflexivity|].
    split; [constructor|]. split; [exact Hread | exact Hsubj].
Defined.

(** A message that is HTML only, and a multipart message whose first
    plain-text part does not decode. *)
Lemma read_email_single_part_body_witness :
  let page := Leaf Fixture.no_headers "text/html" (Some "<p>hello</p>"%string) in
  let lib := {| py_int := fun _ => None; bytes_decode := Some;
                bytes_decode_ignore := fun _ b => Some b;
                message_from_bytes := fun _ => page;
                parseaddr_str := fun s => (EmptyString, s);
                decode_header := fun s => Some [(PStr s, None)] |} in
  exists d, (read_email (H:=lib) "1" "INBOX" Fixture.mail).1 = Ret (Some d)
            /\ d_body d = "<p>hello</p>"%string.
Proof.
  intros page lib.
  exact (read_email_single_part_body (H:=lib) Fixture.mail "1" "INBOX"
           "1 (RFC822 {...}" "plain" [IBytes ")"] no_subject "<p>hello</p>"
           eq_refl eq_refl eq_refl eq_refl eq_refl).
Defined.

Lemma read_email_skips_undecodable_part_witness :
  let broken := Leaf Fixture.no_headers "text/plain" None in
  let good := Leaf Fixture.no_headers "text/plain" (Some "second part"%string) in
  let msg := Multipart Fixture.no_headers "multipart/mixed" [broken; good] in
  let lib := {| py_int := fun _ => None; bytes_decode := Some;
                bytes_decode_ignore := fun _ b => Some b;
                message_from_bytes := fun _ => msg;
                parseaddr_str := fun s => (EmptyString, s);
                decode_header := fun s => Some [(PStr s, None)] |} in
  exists d, (read_email (H:=lib) "1" "INBOX" Fixture.mail).1 = Ret (Some d)
            /\ d_body d = "second part"%string.
Proof.
  intros broken good msg lib.
  refine (read_email_skips_undecodable_part (H:=lib) Fixture.mail "1" "INBOX"
            "1 (RFC822 {...}" "plain" [IBytes ")"] no_subject
            [msg; broken] good [] "second part"
            eq_refl eq_refl eq_refl eq_refl eq_refl _ eq_refl eq_refl).
  repeat constructor.
Defined.

Lemma read_email_body_prefix_witness :
  exists d cut,
    (read_email (H:=Fixture.lib) "1" "INBOX" Fixture.mail).1 = Ret (Some d)
    /\ message_body (Fixture.parse "plain") = d_body d +:+ cut.
Proof.
  pose (d := {| d_from_name := ""; d_from_addr := "Ann <ann@example.com>";
                d_subject := "invoice 1";
                d_date := Some "Mon, 01 Jan 2024 10:00:00 +0000"%string;
                d_body := "first body" |}).
  assert ((read_email (H:=Fixture.lib) "1" "INBOX" Fixture.mail).1 = Ret (Some d))
    as Hread by (vm_compute; reflexivity).
  destruct (read_email_body_prefix (H:=Fixture.lib) Fixture.mail "1" "INBOX" d Hread)
    as (header & raw & rest & cut & Hfetch & Hcut & _).
  injection Hfetch as <- <- <-. by exists d, cut.
Defined.

(** ** The process *)

Section Process.
Context `{Library}.

(** X18.  A command that is none of the five is not refused before the
    connection: [main] logs in, sends nothing else, sends the logout, and
    ends as the logout does: it returns when the logout is answered. *)
Theorem main_unknown_command (net : server) (prog command : string) :
  srv_login net = true ->
  command ∉ ["recent"; "search"; "unread"; "folders"; "read"]%string ->
  exists mail,
    main [prog; command] net = (logout_outcome net, Some mail)
    /\ sent mail = [LOGIN; LOGOUT].
Proof.
  intros Hlogin Hcmd. unfold main, connect_mailbox. rewrite Hlogin.
  rewrite decide_False by (simpl; lia).
  assert (forall c, c ∈ ["recent"; "search"; "unread"; "folders"; "read"]%string ->
                    String.eqb command c = false) as Hne.
  { intros c Hc. apply String.eqb_neq. by intros ->. }
  unfold imap_bind, dispatch. simpl.
  rewrite !Hne by (repeat constructor). simpl.
  unfold mail_logout, logout_outcome. simpl.
  destruct (srv_logout net); eexists; by split.
Qed.

End Process.

Lemma main_unknown_command_witness :
  srv_login Fixture.net = true
  /\ exists mail,
       main (H:=Fixture.lib) ["feishu_mail.py"; "help"]%string Fixture.net
       = (Ret tt, Some mail)
       /\ sent mail = [LOGIN; LOGOUT].
Proof.
  split; [reflexivity|].
  apply (main_unknown_command (H:=Fixture.lib)); [reflexivity|].
  intros Hin. repeat (apply elem_of_cons in Hin as [Heq|Hin]; [discriminate Heq|]).
  by apply elem_of_nil in Hin.
Defined.

(** [unread] on the fixture returns; [search] without a keyword exits; on a
    server that is lost after the login the logout of [folders] raises. *)
Lemma main_logouts_witness :
  (exists mail,
     main (H:=Fixture.lib) ["feishu_mail.py"; "unread"]%string Fixture.net
     = (Ret tt, Some mail) /\ logouts mail = 1)
  /\ (exists mail,
        main (H:=Fixture.lib) ["feishu_mail.py"; "search"]%string Fixture.net
        = (Raise (SystemExit 1), Some mail) /\ logouts mail = 0)
  /\ (exists mail,
        main (H:=Fixture.lib) ["feishu_mail.py"; "folders"]%string Fixture.down
        = (Raise Exception, Some mail)
        /\ (logouts mail = 0 \/ (logouts mail = 1 /\ srv_logout Fixture.down = Failure))).
Proof.
  split; [|split].
  - destruct (main (H:=Fixture.lib) ["feishu_mail.py"; "unread"]%string Fixture.net)
      as [r [mail|]] eqn:Hmain.
    + assert (r = Ret tt) as -> by (vm_compute in Hmain; congruence).
      exists mail. split; [reflexivity|].
      exact (proj1 (main_logouts (H:=Fixture.lib) _ _ _ _ Hmain)).
    + vm_compute in Hmain. discriminate.
  - eexists. split; [reflexivity|].
    exact (main_logouts (H:=Fixture.lib) ["feishu_mail.py"; "search"]%string
             Fixture.net _ _ eq_refl).
  - eexists. split; [reflexivity|].
    exact (main_logouts (H:=Fixture.lib) ["feishu_mail.py"; "folders"]%string
             Fixture.down _ _ eq_refl).
Defined.

(** ** The listing, all or nothing *)

Section Listing.
Context `{Library}.

(** X19.  [get_folder_list] sends one [LIST] and returns either one name
    for each line of the answer, in the order of the answer, or the empty
    list: a line that cannot be resolved discards the names of all the
    others.  The status of the answer is not looked at. *)
Theorem folder_list_all_or_nothing (mail : IMAP4) (status : string)
    (folder_list : list item) :
  srv_list (peer mail) = Reply status folder_list ->
  exists folders,
    (get_folder_list mail).1 = Ret folders
    /\ sent (get_folder_list mail).2 = sent mail ++ [LIST]
    /\ (folders = []
        \/ Forall2 (fun folder name => entry_name folder = Some name)
                   folder_list folders).
Proof.
  intros Hlist. rewrite get_folder_list_run, Hlist. simpl.
  eexists. split; [done|]. split; [done|].
  destruct (mapM entry_name folder_list) as [names|] eqn:Hnames; simpl; [|by left].
  right. by apply mapM_Some_1.
Qed.

End Listing.

Lemma folder_list_all_or_nothing_witness :
  srv_list (peer Fixture.mail) = Reply "OK" Fixture.listing
  /\ exists folders,
       (get_folder_list (H:=Fixture.lib) Fixture.mail).1 = Ret folders
       /\ sent (get_folder_list (H:=Fixture.lib) Fixture.mail).2 = [LOGIN; LIST].
Proof.
  split; [reflexivity|].
  destruct (folder_list_all_or_nothing (H:=Fixture.lib) Fixture.mail "OK"
              Fixture.listing eq_refl) as (folders & Hret & Hsent & _).
  by exists folders.
Defined.
